(** * dummy-img-gen: a shallow embedding of [dummy_img_gen.py]

    The Python module is embedded function by function.  Python integers are
    [Z] ([//] with a positive divisor is [Z.div], which floors as Python does),
    strings are [string], a call that may raise is a value of [res], and code
    that prints or touches the file system is a function of a [World].

    Pillow and the operating system are outside the repository: they form
    the interface [Host], whose operations the embedded functions call
    exactly where the Python code calls them.

    Python floats ([target_ratio], [padding]) are read as exact rationals [Q];
    the rounding of [width * target_ratio] is not modelled, and a canvas
    dimension too large to be converted to a float is outside the model.  No
    statement below depends on the arithmetic of the thresholds: the search
    is verified against the very test that the loop evaluates. *)

From Stdlib Require Import ZArith QArith Lia Bool Ascii String.
From stdpp Require Import base option list strings pretty gmap.
From Equations Require Import Equations.
From Equations.Prop Require Import Logic.

Local Open Scope Z_scope.

(** ** Exceptions *)

(** The exception classes that the module raises or names in an [except]
    clause; every other subclass of [Exception] is [OtherError]. *)
Inductive exn_class : Type :=
| ValueError
| FileNotFoundError
| OSError
| OtherError.

(** An exception instance: its class and [str(e)]. *)
Record exn : Type := Raise { exn_cls : exn_class; exn_msg : string }.

Definition res (A : Type) : Type := exn + A.

Definition ok {A} (a : A) : res A := inr a.
Definition raise {A} (c : exn_class) (msg : string) : res A := inl (Raise c msg).

Definition res_bind {A B} (m : res A) (k : A -> res B) : res B :=
  match m with
  | inl e => inl e
  | inr a => k a
  end.

(** [try: body / except Exception: handler] *)
Definition try_except {A} (body : res A) (handler : exn -> res A) : res A :=
  match body with
  | inl e => handler e
  | inr a => inr a
  end.

(** [try: body / except cls: handler]: other classes pass through. *)
Definition try_except_cls {A} (cls : exn_class) (body : res A)
    (handler : exn -> res A) : res A :=
  match body with
  | inl e =>
      match exn_cls e, cls with
      | ValueError, ValueError
      | FileNotFoundError, FileNotFoundError
      | FileNotFoundError, OSError
      | OSError, OSError => handler e
      | _, _ => inl e
      end
  | inr a => inr a
  end.

Declare Scope res_scope.
Delimit Scope res_scope with res.
Notation "x <- m ;; k" := (res_bind m (fun x => k))
  (at level 100, m at next level, right associativity) : res_scope.

(** ** Python strings *)

Definition ord (c : ascii) : Z := Z.of_N (N_of_ascii c).

(** [str.lower] on one character (ASCII letters; strings are byte strings). *)
Definition lower_ascii (c : ascii) : ascii :=
  if (65 <=? ord c) && (ord c <=? 90)
  then ascii_of_N (N_of_ascii c + 32)
  else c.

Fixpoint lower (s : string) : string :=
  match s with
  | EmptyString => EmptyString
  | String c s' => String (lower_ascii c) (lower s')
  end.

Definition startswith (s pre : string) : bool := String.prefix pre s.

Definition endswith (s suf : string) : bool :=
  let n := String.length s in
  let m := String.length suf in
  (m <=? n)%nat && String.eqb (String.substring (n - m) m s) suf.

(** [s[len(pre):]] when [s.startswith(pre)]. *)
Fixpoint strip_prefix (pre s : string) : option string :=
  match pre, s with
  | EmptyString, _ => Some s
  | String a pre', String b s' => if Ascii.eqb a b then strip_prefix pre' s' else None
  | String _ _, EmptyString => None
  end.

(** ** The host: Pillow and the operating system *)

(** A bounding box [(left, top, right, bottom)], as [font.getbbox] returns. *)
Record bbox : Type := BBox { bb_left : Z; bb_top : Z; bb_right : Z; bb_bottom : Z }.

(** Everything the module calls that is not its own code.  The Pillow part:
    [ImageFont_truetype path size] is [ImageFont.truetype(path, size)],
    [getbbox font text] is [font.getbbox(text)], [Image_new] is [Image.new],
    [draw_text] is [ImageDraw.Draw(img).text(...)], [Image_save] is
    [img.save(path, format, **options)].  The [os]/[sys] part reads and
    changes a [FileSystem]; an operation that can both fail and change it
    returns the outcome and the file system it leaves behind.  [os_walk]
    is the finite sequence of [(root, dirs, files)] triples in the order
    [os.walk] yields them.  [file_bytes] is not called by the module: it is
    the observation used to say that a file kept its content. *)
Class Host : Type := {
  FreeTypeFont : Type;
  Image : Type;
  ImageFont_truetype : string -> Z -> res FreeTypeFont;
  getbbox : FreeTypeFont -> string -> res bbox;
  Image_new : string -> Z * Z -> list Z -> res Image;
  draw_text : Image -> Z * Z -> string -> FreeTypeFont -> list Z -> res Image;
  ImageColor_functional : string -> res (list Z);
  os_name : string;
  sys_platform : string;
  FileSystem : Type;
  os_path_exists : string -> FileSystem -> bool;
  os_walk : string -> FileSystem -> list (string * list string * list string);
  os_path_expanduser : string -> string;
  os_path_join : string -> string -> string;
  os_path_abspath : string -> string;
  os_path_dirname : string -> string;
  os_makedirs : string -> FileSystem -> res unit * FileSystem;
  Image_save : Image -> string -> string -> list (string * Z) ->
               FileSystem -> res unit * FileSystem;
  file_bytes : string -> FileSystem -> option string
}.

(** ** calculate_font_size *)

Section FontSize.
Context {H : Host}.
Variables (text : string) (font_path : string).
Variables (target_width target_height : Q).

(** The three loop variables of the binary search. *)
Record search_state : Type := SearchState {
  size_min : Z;
  size_max : Z;
  optimal_size : Z
}.

Definition mid_size (st : search_state) : Z := (size_min st + size_max st) / 2.

(** The [if] of the loop body: [text_width <= target_width and
    text_height <= target_height]. *)
Definition fits (text_bbox : bbox) : bool :=
  let text_width := bb_right text_bbox - bb_left text_bbox in
  let text_height := bb_bottom text_bbox - bb_top text_bbox in
  Qle_bool (inject_Z text_width) target_width
  && Qle_bool (inject_Z text_height) target_height.

(** The statements inside [try:]. *)
Definition probe (st : search_state) : res search_state :=
  (font <- ImageFont_truetype font_path (mid_size st) ;;
   text_bbox <- getbbox font text ;;
   if fits text_bbox
   then ok (SearchState (mid_size st + 1) (size_max st) (mid_size st))
   else ok (SearchState (size_min st) (mid_size st - 1) (optimal_size st)))%res.

(** One iteration of the [while]: [try: ... except Exception: size_max = mid_size - 1]. *)
Definition loop_body (st : search_state) : res search_state :=
  try_except (probe st)
    (fun _ => ok (SearchState (size_min st) (mid_size st - 1) (optimal_size st))).

Definition loop_cond (st : search_state) : bool := size_min st <=? size_max st.

(** The number of sizes still between the bounds. *)
Definition span (st : search_state) : nat := Z.to_nat (size_max st - size_min st + 1).

(** [while size_min <= size_max: ...], returning the variables at exit. *)
Equations? search_loop (st : search_state) : res search_state by wf (span st) lt :=
  search_loop st with inspect (loop_cond st) := {
    | exist _ false _ := ok st
    | exist _ true Hc with inspect (loop_body st) := {
        | exist _ (inl e) _ := inl e
        | exist _ (inr st') Hb := search_loop st' } }.
Proof.
  revert Hc Hb.
  unfold loop_cond, loop_body, probe, try_except, res_bind, ok, span, mid_size.
  intros Hc Hb. apply Z.leb_le in Hc.
  assert (Hlo : size_min st <= (size_min st + size_max st) / 2)
    by (apply Z.div_le_lower_bound; lia).
  assert (Hhi : (size_min st + size_max st) / 2 <= size_max st)
    by (apply Z.div_le_upper_bound; lia).
  destruct (ImageFont_truetype _ _) as [e|font].
  - injection Hb as <-. simpl. lia.
  - destruct (getbbox font text) as [e|bb].
    + injection Hb as <-. simpl. lia.
    + destruct (fits bb); injection Hb as <-; simpl; lia.
Qed.

End FontSize.

(** [calculate_font_size(text, image_size, font_path, target_ratio)] *)
Definition calculate_font_size {H : Host} (text : string) (image_size : Z * Z)
    (font_path : string) (target_ratio : Q) : res Z :=
  let '(width, height) := image_size in
  let target_width := (inject_Z width * target_ratio)%Q in
  let target_height := (inject_Z height * target_ratio)%Q in
  (st <- search_loop text font_path target_width target_height
           (SearchState 10 (Z.min width height) 10) ;;
   ok (optimal_size st))%res.

(** ** ImageColor (Pillow) and parse_color *)

Module ImageColor.

(** Modelled from the spec: [ImageColor.colormap], the "standard web-color
    name table" (the CSS colour keywords), which Pillow ships and the
    repository does not.  Values are the [#rrggbb] strings of the table. *)
Definition colormap : list (string * string) :=
  [ ("aliceblue", "#f0f8ff"); ("antiquewhite", "#faebd7"); ("aqua", "#00ffff");
    ("aquamarine", "#7fffd4"); ("azure", "#f0ffff"); ("beige", "#f5f5dc");
    ("bisque", "#ffe4c4"); ("black", "#000000"); ("blanchedalmond", "#ffebcd");
    ("blue", "#0000ff"); ("blueviolet", "#8a2be2"); ("brown", "#a52a2a");
    ("burlywood", "#deb887"); ("cadetblue", "#5f9ea0"); ("chartreuse", "#7fff00");
    ("chocolate", "#d2691e"); ("coral", "#ff7f50"); ("cornflowerblue", "#6495ed");
    ("cornsilk", "#fff8dc"); ("crimson", "#dc143c"); ("cyan", "#00ffff");
    ("darkblue", "#00008b"); ("darkcyan", "#008b8b"); ("darkgoldenrod", "#b8860b");
    ("darkgray", "#a9a9a9"); ("darkgrey", "#a9a9a9"); ("darkgreen", "#006400");
    ("darkkhaki", "#bdb76b"); ("darkmagenta", "#8b008b");
    ("darkolivegreen", "#556b2f"); ("darkorange", "#ff8c00");
    ("darkorchid", "#9932cc"); ("darkred", "#8b0000"); ("darksalmon", "#e9967a");
    ("darkseagreen", "#8fbc8f"); ("darkslateblue", "#483d8b");
    ("darkslategray", "#2f4f4f"); ("darkslategrey", "#2f4f4f");
    ("darkturquoise", "#00ced1"); ("darkviolet", "#9400d3");
    ("deeppink", "#ff1493"); ("deepskyblue", "#00bfff"); ("dimgray", "#696969");
    ("dimgrey", "#696969"); ("dodgerblue", "#1e90ff"); ("firebrick", "#b22222");
    ("floralwhite", "#fffaf0"); ("forestgreen", "#228b22"); ("fuchsia", "#ff00ff");
    ("gainsboro", "#dcdcdc"); ("ghostwhite", "#f8f8ff"); ("gold", "#ffd700");
    ("goldenrod", "#daa520"); ("gray", "#808080"); ("grey", "#808080");
    ("green", "#008000"); ("greenyellow", "#adff2f"); ("honeydew", "#f0fff0");
    ("hotpink", "#ff69b4"); ("indianred", "#cd5c5c"); ("indigo", "#4b0082");
    ("ivory", "#fffff0"); ("khaki", "#f0e68c"); ("lavender", "#e6e6fa");
    ("lavenderblush", "#fff0f5"); ("lawngreen", "#7cfc00");
    ("lemonchiffon", "#fffacd"); ("lightblue", "#add8e6");
    ("lightcoral", "#f08080"); ("lightcyan", "#e0ffff");
    ("lightgoldenrodyellow", "#fafad2"); ("lightgreen", "#90ee90");
    ("lightgray", "#d3d3d3"); ("lightgrey", "#d3d3d3"); ("lightpink", "#ffb6c1");
    ("lightsalmon", "#ffa07a"); ("lightseagreen", "#20b2aa");
    ("lightskyblue", "#87cefa"); ("lightslategray", "#778899");
    ("lightslategrey", "#778899"); ("lightsteelblue", "#b0c4de");
    ("lightyellow", "#ffffe0"); ("lime", "#00ff00"); ("limegreen", "#32cd32");
    ("linen", "#faf0e6"); ("magenta", "#ff00ff"); ("maroon", "#800000");
    ("mediumaquamarine", "#66cdaa"); ("mediumblue", "#0000cd");
    ("mediumorchid", "#ba55d3"); ("mediumpurple", "#9370db");
    ("mediumseagreen", "#3cb371"); ("mediumslateblue", "#7b68ee");
    ("mediumspringgreen", "#00fa9a"); ("mediumturquoise", "#48d1cc");
    ("mediumvioletred", "#c71585"); ("midnightblue", "#191970");
    ("mintcream", "#f5fffa"); ("mistyrose", "#ffe4e1"); ("moccasin", "#ffe4b5");
    ("navajowhite", "#ffdead"); ("navy", "#000080"); ("oldlace", "#fdf5e6");
    ("olive", "#808000"); ("olivedrab", "#6b8e23"); ("orange", "#ffa500");
    ("orangered", "#ff4500"); ("orchid", "#da70d6"); ("palegoldenrod", "#eee8aa");
    ("palegreen", "#98fb98"); ("paleturquoise", "#afeeee");
    ("palevioletred", "#db7093"); ("papayawhip", "#ffefd5");
    ("peachpuff", "#ffdab9"); ("peru", "#cd853f"); ("pink", "#ffc0cb");
    ("plum", "#dda0dd"); ("powderblue", "#b0e0e6"); ("purple", "#800080");
    ("rebeccapurple", "#663399"); ("red", "#ff0000"); ("rosybrown", "#bc8f8f");
    ("royalblue", "#4169e1"); ("saddlebrown", "#8b4513"); ("salmon", "#fa8072");
    ("sandybrown", "#f4a460"); ("seagreen", "#2e8b57"); ("seashell", "#fff5ee");
    ("sienna", "#a0522d"); ("silver", "#c0c0c0"); ("skyblue", "#87ceeb");
    ("slateblue", "#6a5acd"); ("slategray", "#708090"); ("slategrey", "#708090");
    ("snow", "#fffafa"); ("springgreen", "#00ff7f"); ("steelblue", "#4682b4");
    ("tan", "#d2b48c"); ("teal", "#008080"); ("thistle", "#d8bfd8");
    ("tomato", "#ff6347"); ("turquoise", "#40e0d0"); ("violet", "#ee82ee");
    ("wheat", "#f5deb3"); ("white", "#ffffff"); ("whitesmoke", "#f5f5f5");
    ("yellow", "#ffff00"); ("yellowgreen", "#9acd32") ].

(** [colormap.get(color, None)] *)
Fixpoint colormap_get (table : list (string * string)) (color : string) : option string :=
  match table with
  | [] => None
  | (name, value) :: table' =>
      if String.eqb name color then Some value else colormap_get table' color
  end.

(** The value of one character of the class [[a-f0-9]]. *)
Definition hex_digit (c : ascii) : option Z :=
  if (48 <=? ord c) && (ord c <=? 57) then Some (ord c - 48)
  else if (97 <=? ord c) && (ord c <=? 102) then Some (ord c - 87)
  else None.

(** [[a-f0-9]*$]: the digits up to the end of the string; Python's [$] also
    matches just before a newline that ends the string. *)
Fixpoint hex_digits (s : string) : option (list Z) :=
  match s with
  | EmptyString => Some []
  | String c s' =>
      if Ascii.eqb c "010" && String.eqb s' "" then Some []
      else d ← hex_digit c; ds ← hex_digits s'; Some (d :: ds)
  end.

(** Modelled from the spec: the hex forms of [ImageColor.getrgb], "3, 4, 6,
    or 8 hex digits, each form interpreted as R,G,B[,A] possibly doubled
    for short forms": [int(color[i] * 2, 16)] for the short forms and
    [int(color[i:i+2], 16)] for the long ones. *)
Definition hex_form (color : string) : option (list Z) :=
  match color with
  | String "#" digits =>
      ds ← hex_digits digits;
      match ds with
      | [r; g; b] => Some [16 * r + r; 16 * g + g; 16 * b + b]
      | [r; g; b; a] => Some [16 * r + r; 16 * g + g; 16 * b + b; 16 * a + a]
      | [r1; r2; g1; g2; b1; b2] => Some [16 * r1 + r2; 16 * g1 + g2; 16 * b1 + b2]
      | [r1; r2; g1; g2; b1; b2; a1; a2] =>
          Some [16 * r1 + r2; 16 * g1 + g2; 16 * b1 + b2; 16 * a1 + a2]
      | _ => None
      end
  | _ => None
  end.

(** [\s] and [\d] on ASCII. *)
Definition is_space (c : ascii) : bool :=
  (ord c =? 32) || ((9 <=? ord c) && (ord c <=? 13)).
Definition is_digit (c : ascii) : bool := (48 <=? ord c) && (ord c <=? 57).

Fixpoint skip_spaces (s : string) : string :=
  match s with
  | String c s' => if is_space c then skip_spaces s' else s
  | EmptyString => s
  end.

(** [(\d+)] and [int(m.group(i))]: the number read and what follows it. *)
Fixpoint digits_from (acc : Z) (s : string) : Z * string :=
  match s with
  | String c s' => if is_digit c then digits_from (10 * acc + (ord c - 48)) s' else (acc, s)
  | EmptyString => (acc, s)
  end.

Definition number (s : string) : option (Z * string) :=
  match s with
  | String c _ => if is_digit c then Some (digits_from 0 s) else None
  | EmptyString => None
  end.

Definition expect (c : ascii) (s : string) : option string :=
  match s with
  | String c' s' => if Ascii.eqb c c' then Some s' else None
  | EmptyString => None
  end.

Definition at_end (s : string) : bool := String.eqb s "" || String.eqb s (String "010" "").

(** The functional notation with integer channels of Pillow's [getrgb],
    [rgb\(\s*(\d+)\s*,\s*(\d+)\s*,\s*(\d+)\s*\)$], on ASCII. *)
Definition rgb_form (color : string) : option (list Z) :=
  s ← strip_prefix "rgb(" color;
  '(r, s) ← number (skip_spaces s);
  s ← expect "," (skip_spaces s);
  '(g, s) ← number (skip_spaces s);
  s ← expect "," (skip_spaces s);
  '(b, s) ← number (skip_spaces s);
  s ← expect ")" (skip_spaces s);
  if at_end s then Some [r; g; b] else None.

(** Every other notation of [getrgb] starts with one of these. *)
Definition functional_prefix (color : string) : bool :=
  startswith color "rgb(" || startswith color "rgba(" || startswith color "hsl("
  || startswith color "hsv(" || startswith color "hsb(".

Section WithHost.
Context {H : Host}.

(** Modelled from the spec: [ImageColor.getrgb(color)], Pillow code that
    the repository calls and does not contain.  The name table and the hex
    forms are the two grammars of the spec (section 4.1); the limit of 100
    characters, the lower-casing and the functional notations are those of
    Pillow's documentation of the module.  [rgb(r, g, b)] with integer
    channels is [rgb_form]; the notations that need float arithmetic or
    Unicode character classes (percent [rgb], [rgba], [hsl], [hsv]/[hsb])
    are the host's [ImageColor_functional], reached only behind their
    prefixes.  The text of Pillow's own message is not modelled:
    [parse_color] replaces it. *)
Definition getrgb (color : string) : res (list Z) :=
  if (100 <? String.length color)%nat
  then raise ValueError "color specifier is too long"
  else
    let color := lower color in
    match colormap_get colormap color with
    | Some rgb =>
        match hex_form rgb with
        | Some t => ok t
        | None => raise ValueError ("unknown color specifier: " +:+ rgb)
        end
    | None =>
        match hex_form color with
        | Some t => ok t
        | None =>
            match rgb_form color with
            | Some t => ok t
            | None =>
                if functional_prefix color then ImageColor_functional color
                else raise ValueError ("unknown color specifier: " +:+ color)
            end
        end
    end.

(** Modelled from the spec: [ImageColor.getcolor(color, "RGBA")], "a
    4-channel value with alpha defaulting to fully opaque (255) when not
    specified": the alpha channel of a four-channel colour is kept, any
    other colour gets 255. *)
Definition getcolor_RGBA (color : string) : res (list Z) :=
  (rgb <- getrgb color ;;
   match rgb with
   | [r; g; b; alpha] => ok ([r; g; b] ++ [alpha])
   | _ => ok (rgb ++ [255])
   end)%res.

End WithHost.

End ImageColor.

(** [parse_color(color)]: a [ValueError] of [getcolor] is replaced by one
    that names the input; anything else passes through. *)
Definition parse_color {H : Host} (color : string) : res (list Z) :=
  try_except_cls ValueError (ImageColor.getcolor_RGBA color)
    (fun _ => raise ValueError ("Unrecognized color: " +:+ color)).

(** ** find_system_font *)

Section FindFont.
Context {H : Host}.

(** The [if os.name == 'nt' / elif sys.platform == 'darwin' / else] chain. *)
Definition potential_fonts : list string :=
  if String.eqb os_name "nt" then
    [ "C:\Windows\Fonts\Arial.ttf";
      "C:\Windows\Fonts\Arial Bold.ttf";
      "C:\Windows\Fonts\Calibri.ttf";
      "C:\Windows\Fonts\Segoe UI Bold.ttf" ]
  else if String.eqb sys_platform "darwin" then
    [ "/System/Library/Fonts/Helvetica.ttc";
      "/System/Library/Fonts/SFCompact-Bold.otf";
      "/Library/Fonts/Arial.ttf";
      "/Library/Fonts/Arial Bold.ttf" ]
  else
    [ "/usr/share/fonts/truetype/dejavu/DejaVuSans-Bold.ttf";
      "/usr/share/fonts/truetype/liberation/LiberationSans-Bold.ttf";
      "/usr/share/fonts/truetype/ubuntu/Ubuntu-Bold.ttf";
      "/usr/share/fonts/TTF/Arial.ttf" ].

Definition font_dirs : list string :=
  [ "/usr/share/fonts";
    "/usr/local/share/fonts";
    os_path_expanduser "~/.fonts";
    "C:\Windows\Fonts";
    "/Library/Fonts";
    "/System/Library/Fonts" ].

(** [file.lower().endswith(('.ttf', '.otf'))] *)
Definition is_font_file (file : string) : bool :=
  endswith (lower file) ".ttf" || endswith (lower file) ".otf".

(** [for font_path in potential_fonts: if os.path.exists(font_path): return font_path] *)
Fixpoint first_existing (paths : list string) (fs : FileSystem) : option string :=
  match paths with
  | [] => None
  | font_path :: paths' =>
      if os_path_exists font_path fs then Some font_path
      else first_existing paths' fs
  end.

(** [for file in files: if ...: return os.path.join(root, file)] *)
Fixpoint scan_files (root : string) (files : list string) : option string :=
  match files with
  | [] => None
  | file :: files' =>
      if is_font_file file then Some (os_path_join root file)
      else scan_files root files'
  end.

(** [for root, _, files in os.walk(font_dir): ...] *)
Fixpoint scan_walk (walk : list (string * list string * list string)) : option string :=
  match walk with
  | [] => None
  | (root, _, files) :: walk' =>
      match scan_files root files with
      | Some found => Some found
      | None => scan_walk walk'
      end
  end.

(** [for font_dir in font_dirs: if os.path.exists(font_dir): ...] *)
Fixpoint scan_dirs (dirs : list string) (fs : FileSystem) : option string :=
  match dirs with
  | [] => None
  | font_dir :: dirs' =>
      if os_path_exists font_dir fs then
        match scan_walk (os_walk font_dir fs) with
        | Some found => Some found
        | None => scan_dirs dirs' fs
        end
      else scan_dirs dirs' fs
  end.

Definition find_system_font (fs : FileSystem) : res string :=
  match first_existing potential_fonts fs with
  | Some font_path => ok font_path
  | None =>
      match scan_dirs font_dirs fs with
      | Some found => ok found
      | None =>
          raise FileNotFoundError
            "Could not find any usable font. Please specify a font with --font-path."
      end
  end.

End FindFont.

(** ** Printing and the file system *)

(** What a call can observe and change: the file system and the lines
    printed so far (oldest first). *)
Record World {H : Host} : Type := MkWorld { fs : FileSystem; stdout : list string }.
Arguments MkWorld {H} fs stdout.

(** A computation that may raise and may change the world. *)
Definition IO {H : Host} (A : Type) : Type := World -> res A * World.

Section IOMonad.
Context {H : Host}.

Definition io_ret {A} (a : A) : IO A := fun w => (inr a, w).

Definition io_bind {A B} (m : IO A) (k : A -> IO B) : IO B :=
  fun w =>
    match m w with
    | (inl e, w') => (inl e, w')
    | (inr a, w') => k a w'
    end.

(** A call that neither prints nor touches the file system. *)
Definition io_lift {A} (r : res A) : IO A := fun w => (r, w).

(** A call that reads the file system. *)
Definition io_read {A} (f : FileSystem -> A) : IO A := fun w => (inr (f (fs w)), w).

(** A call that may change the file system. *)
Definition io_fs {A} (f : FileSystem -> res A * FileSystem) : IO A :=
  fun w => let '(r, fs') := f (fs w) in (r, MkWorld fs' (stdout w)).

(** [print(line)] *)
Definition print (line : string) : IO unit :=
  fun w => (inr tt, MkWorld (fs w) (stdout w ++ [line])).

End IOMonad.

Declare Scope io_scope.
Delimit Scope io_scope with io.
Notation "x <- m ;; k" := (io_bind m (fun x => k))
  (at level 100, m at next level, right associativity) : io_scope.

(** ** generate_placeholder_image *)

Section Generate.
Context {H : Host}.

(** Lines 208-211: the draw origin of the text from the canvas size and the
    bounding box of the text. *)
Definition text_origin (size : Z * Z) (text_bbox : bbox) : Z * Z :=
  let text_width := bb_right text_bbox - bb_left text_bbox in
  let x := (fst size - text_width) / 2 in
  let y := (snd size - bb_top text_bbox - bb_bottom text_bbox) / 2 in
  (x, y).

(** [not font_path] for an [Optional[str]]. *)
Definition not_font_path (font_path : option string) : bool :=
  match font_path with
  | None => true
  | Some p => String.eqb p ""
  end.

(** The [try:] block that yields the font (lines 200-206). *)
Definition load_font (text : string) (size : Z * Z) (font_path : string)
    (font_size : option Z) (padding : Q) : res FreeTypeFont :=
  try_except
    (font_size <- match font_size with
                  | None =>
                      let target_ratio := (1 - 2 * padding)%Q in
                      calculate_font_size text size font_path target_ratio
                  | Some n => ok n
                  end ;;
     ImageFont_truetype font_path font_size)%res
    (fun e => raise ValueError ("Font error: " +:+ exn_msg e)).

(** The three [img.save] calls (lines 219-224). *)
Definition save_image (img : Image) (output_path format : string) (jpg_quality : Z)
    : IO unit :=
  if String.eqb format "jpg" then
    io_fs (Image_save img output_path "JPEG" [("quality", jpg_quality); ("optimize", 1)])
  else if String.eqb format "webp" then
    io_fs (Image_save img output_path "WEBP" [("quality", jpg_quality); ("method", 6)])
  else
    io_fs (Image_save img output_path "PNG" [("optimize", 1)]).

(** [generate_placeholder_image(...)].  [ImageDraw.Draw(img)] of line 197
    only wraps the new image; it is part of [draw_text]. *)
Definition generate_placeholder_image (number : Z) (output_path : string)
    (size : Z * Z) (bg_color text_color format : string)
    (font_path : option string) (font_size : option Z) (jpg_quality : Z)
    (overwrite : bool) (padding : Q) : IO string :=
  (present <- io_read (os_path_exists output_path) ;;
   if present && negb overwrite then
     _ <- print ("Skipping " +:+ output_path +:+ " (already exists)") ;;
     io_ret output_path
   else
     font_path <- (if not_font_path font_path
                   then fun w => (find_system_font (fs w), w)
                   else io_ret (default "" font_path)) ;;
     bg_rgba <- io_lift (parse_color bg_color) ;;
     text_rgba <- io_lift (parse_color text_color) ;;
     img <- io_lift (if String.eqb format "jpg"
                     then Image_new "RGB" size (take 3 bg_rgba)
                     else Image_new "RGBA" size bg_rgba) ;;
     let text := pretty number in
     font <- io_lift (load_font text size font_path font_size padding) ;;
     text_bbox <- io_lift (getbbox font text) ;;
     let origin := text_origin size text_bbox in
     let fill_color := if String.eqb format "jpg" then take 3 text_rgba else text_rgba in
     img <- io_lift (draw_text img origin text font fill_color) ;;
     _ <- io_fs (os_makedirs (os_path_dirname (os_path_abspath output_path))) ;;
     _ <- save_image img output_path format jpg_quality ;;
     io_ret output_path)%io.

(** ** generate_placeholder_images *)

Section Batch.
Variables (output_dir : string) (start_num : Z) (size : Z * Z).
Variables (bg_color text_color format prefix : string).
Variables (font_size : option Z) (font_path : option string).
Variables (jpg_quality : Z) (overwrite : bool) (padding : Q).

(** [output_path] of the image at loop index [i]. *)
Definition image_path (i : Z) : string :=
  let current_num := start_num + i in
  let filename := prefix +:+ pretty current_num +:+ "." +:+ format in
  os_path_join output_dir filename.

(** One iteration of [for i in range(count)] (lines 272-284). *)
Definition images_step (i : Z) (generated_files : list string) : IO (list string) :=
  fun w =>
    let current_num := start_num + i in
    let output_path := image_path i in
    match generate_placeholder_image current_num output_path size bg_color
            text_color format font_path font_size jpg_quality overwrite padding w with
    | (inr path, w') =>
        (_ <- print ("Generated: " +:+ path) ;;
         io_ret (generated_files ++ [path]))%io w'
    | (inl e, w') =>
        (_ <- print ("Error generating " +:+ output_path +:+ ": " +:+ exn_msg e) ;;
         io_ret generated_files)%io w'
    end.

Fixpoint images_loop (indices : list Z) (generated_files : list string)
    : IO (list string) :=
  match indices with
  | [] => io_ret generated_files
  | i :: indices' =>
      (generated_files <- images_step i generated_files ;;
       images_loop indices' generated_files)%io
  end.

Definition generate_placeholder_images (count : Z) : IO (list string) :=
  (_ <- io_fs (os_makedirs output_dir) ;;
   images_loop (seqZ 0 count) [])%io.

End Batch.

End Generate.

(** ** Notions the statements use *)

(** The text can be measured at size [S] and its box is within the two
    thresholds. *)
Definition fits_at {H : Host} (text font_path : string) (target_width target_height : Q)
    (S : Z) : Prop :=
  exists font text_bbox,
    ImageFont_truetype font_path S = inr font /\
    getbbox font text = inr text_bbox /\
    (inject_Z (bb_right text_bbox - bb_left text_bbox) <= target_width)%Q /\
    (inject_Z (bb_bottom text_bbox - bb_top text_bbox) <= target_height)%Q.

Section Feasibility.
Context {H : Host}.
Variables (text : string) (image_size : Z * Z) (font_path : string) (target_ratio : Q).

(** Size [S] is feasible: the text can be measured at [S] and its bounding
    box has width at most [r * width] and height at most [r * height]. *)
Definition feasible (S : Z) : Prop :=
  fits_at text font_path
    (inject_Z (fst image_size) * target_ratio) (inject_Z (snd image_size) * target_ratio) S.

(** The sizes the search ranges over: [10 .. min(width, height)]. *)
Definition in_range (S : Z) : Prop :=
  10 <= S <= Z.min (fst image_size) (snd image_size).

Definition max_feasible (n : Z) : Prop :=
  in_range n /\ feasible n /\ forall S, in_range S -> feasible S -> S <= n.

(** The search is correct on this input: whenever some size of the range
    is feasible, the result is the largest feasible size of the range. *)
Definition search_correct : Prop :=
  (exists S, in_range S /\ feasible S) ->
  exists n, calculate_font_size text image_size font_path target_ratio = inr n
            /\ max_feasible n.

(** Feasibility never comes back as the size shrinks (the "monotonicity
    assumption" on the text measurement). *)
Definition downward_closed : Prop :=
  forall a b, in_range a -> in_range b -> a <= b -> feasible b -> feasible a.

(** Measuring at size [S] raises, in [ImageFont.truetype] or in [getbbox]. *)
Definition measure_raises (S : Z) : Prop :=
  (exists e, ImageFont_truetype font_path S = inl e) \/
  (exists font e, ImageFont_truetype font_path S = inr font /\ getbbox font text = inl e).

End Feasibility.

(** The three platform categories of [find_system_font]. *)
Inductive category : Type := WindowsLike | MacLike | UnixLike.

Definition platform_category (H : Host) : category :=
  if String.eqb os_name "nt" then WindowsLike
  else if String.eqb sys_platform "darwin" then MacLike
  else UnixLike.

Section Candidates.
Context {H : Host}.

(** The font files below one root, in the order [os.walk] lists them. *)
Definition fonts_below (font_dir : string) (fs : FileSystem) : list string :=
  flat_map (fun '(root, _, files) => map (os_path_join root) (List.filter is_font_file files))
           (os_walk font_dir fs).

(** The font files below the roots that exist, root by root. *)
Definition fallback_candidates (dirs : list string) (fs : FileSystem) : list string :=
  flat_map (fun font_dir => if os_path_exists font_dir fs then fonts_below font_dir fs else [])
           dirs.

End Candidates.

(** A colour string in one of the hex forms: 3, 4, 6 or 8 hex digits. *)
Definition is_hex_color (color : string) : bool :=
  match ImageColor.hex_form (lower color) with Some _ => true | None => false end.

(** A colour string that is a name of the table. *)
Definition is_named_color (color : string) : bool :=
  match ImageColor.colormap_get ImageColor.colormap (lower color) with
  | Some _ => true
  | None => false
  end.

(** The two lines a skipped image leaves on the output. *)
Definition skipped_report (path : string) : list string :=
  [ "Skipping " +:+ path +:+ " (already exists)"; "Generated: " +:+ path ].

(** ** main *)

(** The [argparse.Namespace] that [parser.parse_args()] returns, with the
    fields [main] reads.  [--font-path] and [--font-size] have no default:
    they are [None] when the flag is absent. *)
Record Namespace : Type := {
  args_output_dir : string;
  args_count : Z;
  args_start : Z;
  args_width : Z;
  args_height : Z;
  args_bg_color : string;
  args_text_color : string;
  args_format : string;
  args_prefix : string;
  args_font_path : option string;
  args_font_size : option Z;
  args_jpg_quality : Z;
  args_overwrite : bool;
  args_padding : Q
}.

(** The values of the [default=] arguments of lines 296-309. *)
Definition default_args (output_dir : string) : Namespace := {|
  args_output_dir := output_dir;
  args_count := 10;
  args_start := 1;
  args_width := 800;
  args_height := 600;
  args_bg_color := "#cccccc";
  args_text_color := "#333333";
  args_format := "png";
  args_prefix := "img_";
  args_font_path := None;
  args_font_size := None;
  args_jpg_quality := 90;
  args_overwrite := false;
  args_padding := 2 # 10
|}.

(** [main()] from line 313 on, given the parsed arguments ([argparse] itself
    is not embedded).  The result is the exit status: [None] when [main]
    returns, [Some 1] for [sys.exit(1)]. *)
Definition main {H : Host} (args : Namespace) (w : World) : option Z * World :=
  match generate_placeholder_images (args_output_dir args) (args_start args)
          (args_width args, args_height args) (args_bg_color args) (args_text_color args)
          (args_format args) (args_prefix args) (args_font_size args) (args_font_path args)
          (args_jpg_quality args) (args_overwrite args) (args_padding args)
          (args_count args) w with
  | (inr _, w') =>
      (None,
       (print (String "010" "Successfully generated " +:+ pretty (args_count args)
                 +:+ " images in " +:+ args_output_dir args) w').2)
  | (inl e, w') => (Some 1, (print ("Error: " +:+ exn_msg e) w').2)
  end.

(** ** The search loop with a budget of iterations *)

Section Budget.
Context {H : Host}.
Variables (text : string) (font_path : string).
Variables (target_width target_height : Q).

(** At most [budget] iterations of the [while] of [calculate_font_size];
    the state reached, whether or not the loop condition still holds. *)
Fixpoint search_steps (budget : nat) (st : search_state) : res search_state :=
  match budget with
  | O => ok st
  | S budget' =>
      if loop_cond st then
        match loop_body text font_path target_width target_height st with
        | inl e => inl e
        | inr st' => search_steps budget' st'
        end
      else ok st
  end.

End Budget.

(** [Image.new] mode and the [img.save] format and options that
    [generate_placeholder_image] uses for a [format] argument. *)
Definition image_mode (format : string) : string :=
  if String.eqb format "jpg" then "RGB" else "RGBA".

Definition encoder (format : string) (jpg_quality : Z) : string * list (string * Z) :=
  if String.eqb format "jpg" then ("JPEG", [("quality", jpg_quality); ("optimize", 1)])
  else if String.eqb format "webp" then ("WEBP", [("quality", jpg_quality); ("method", 6)])
  else ("PNG", [("optimize", 1)]).

(** ** A simulated host, for running the functions on concrete inputs *)

Module Sim.

(** Files with their bytes, and directories with what [os.walk] lists
    below them. *)
Record sim_fs : Type := SimFS {
  files : gmap string string;
  dirs : gmap string (list (string * list string * list string))
}.

Definition exists_ (path : string) (fs : sim_fs) : bool :=
  bool_decide (is_Some (files fs !! path)) || bool_decide (is_Some (dirs fs !! path)).

(** [posixpath.join] of two components. *)
Definition join (a b : string) : string :=
  if startswith b "/" then b
  else if String.eqb a "" || endswith a "/" then a +:+ b
  else a +:+ "/" +:+ b.

Fixpoint drop_to_slash (s : string) : string :=
  match s with
  | EmptyString => EmptyString
  | String c s' => if Ascii.eqb c "/" then s' else drop_to_slash s'
  end.

Definition dirname (path : string) : string :=
  String.rev (drop_to_slash (String.rev path)).

Definition makedirs (path : string) (fs : sim_fs) : res unit * sim_fs :=
  match dirs fs !! path with
  | Some _ => (inr tt, fs)
  | None => (inr tt, SimFS (files fs) (<[path := [(path, [], [])]]> (dirs fs)))
  end.

(** [ImageFont.truetype] of a font with no strike below [min_pixel_size]. *)
Definition strikes_from (min_pixel_size size : Z) : res Z :=
  if size <? min_pixel_size then raise OSError "invalid pixel size" else ok size.

(** [ImageFont.truetype] of a file that is not a font. *)
Definition unreadable (size : Z) : res Z := raise OSError "cannot open resource".

(** A host whose font loads as [truetype] says and whose glyph box grows
    with the size; [bad_text] is a text the font cannot measure. *)
Definition host (name platform : string) (truetype : Z -> res Z) (bad_text : string) : Host := {|
  FreeTypeFont := Z;
  Image := string;
  ImageFont_truetype := fun _ size => truetype size;
  getbbox := fun size text =>
    if String.eqb text bad_text then raise OtherError "cannot measure the text"
    else ok (BBox 0 (size / 5) (size * Z.of_nat (String.length text) / 2)
                  (size / 5 + size / 2));
  Image_new := fun mode size _ =>
    ok (mode +:+ " " +:+ pretty (fst size) +:+ "x" +:+ pretty (snd size));
  draw_text := fun img origin text font _ =>
    ok (img +:+ " '" +:+ text +:+ "' at " +:+ pretty (fst origin) +:+ ","
            +:+ pretty (snd origin) +:+ " size " +:+ pretty font);
  ImageColor_functional := fun color =>
    raise ValueError ("unknown color specifier: " +:+ color);
  os_name := name;
  sys_platform := platform;
  FileSystem := sim_fs;
  os_path_exists := exists_;
  os_walk := fun path fs => default [] (dirs fs !! path);
  os_path_expanduser := fun path =>
    match strip_prefix "~" path with
    | Some rest => "/home/dev" +:+ rest
    | None => path
    end;
  os_path_join := join;
  os_path_abspath := fun path => join "/work" path;
  os_path_dirname := dirname;
  os_makedirs := makedirs;
  Image_save := fun img path format _ fs =>
    (inr tt, SimFS (<[path := format +:+ ": " +:+ img]> (files fs)) (dirs fs));
  file_bytes := fun path fs => files fs !! path
|}.

Definition linux : Host := host "posix" "linux" (strikes_from 1) "".
Definition windows : Host := host "nt" "win32" (strikes_from 1) "".

(** A font with no strike below 16 pixels. *)
Definition coarse : Host := host "posix" "linux" (strikes_from 16) "".

(** A font file that cannot be loaded at any size. *)
Definition broken : Host := host "posix" "linux" unreadable "".

(** A font that cannot measure the text ["2"]. *)
Definition no_two : Host := host "posix" "linux" (strikes_from 1) "2".

Definition empty_fs : sim_fs := SimFS ∅ ∅.

(** Only one font on the disk, in a sub-directory of [/usr/share/fonts]. *)
Definition one_font_fs : sim_fs :=
  SimFS {[ "/usr/share/fonts/extra/Mono.OTF" := "font data" ]}
        {[ "/usr/share/fonts" :=
             [ ("/usr/share/fonts", ["extra"], ["README.txt"]);
               ("/usr/share/fonts/extra", [], ["notes.md"; "Mono.OTF"; "Sans.ttf"]) ] ]}.

(** A disk where image 2 of the batch is already there. *)
Definition taken_fs : sim_fs :=
  SimFS {[ "out/img_2.png" := "old bytes" ]} {[ "out" := [("out", [], ["img_2.png"])] ]}.

(** The world at the start of a run: a disk and nothing printed yet. *)
Definition world (H : Host) (fs : FileSystem) : World := MkWorld fs [].

End Sim.

(** * Theorems *)

(** ** The binary search *)

Section FontSizeFacts.
Context {H : Host}.
Variables (text : string) (font_path : string).
Variables (target_width target_height : Q).

Local Abbreviation body := (loop_body text font_path target_width target_height).
Local Abbreviation loop := (search_loop text font_path target_width target_height).
Local Abbreviation good := (fits_at text font_path target_width target_height).

(** The loop, unfolded once. *)
Lemma search_loop_once st :
  loop st =
  if loop_cond st then
    match body st with
    | inl e => inl e
    | inr st' => loop st'
    end
  else ok st.
Proof.
  funelim (loop st);
    repeat match goal with
           | E : loop_cond _ = _ |- _ => progress rewrite E
           | E : loop_body _ _ _ _ _ = _ |- _ => progress rewrite E
           end; reflexivity.
Qed.

Lemma fits_true_iff bb :
  fits target_width target_height bb = true <->
  (inject_Z (bb_right bb - bb_left bb) <= target_width)%Q /\
  (inject_Z (bb_bottom bb - bb_top bb) <= target_height)%Q.
Proof.
  unfold fits. rewrite andb_true_iff, !Qle_bool_iff. reflexivity.
Qed.

(** The midpoint lies between the bounds while the loop runs. *)
Lemma mid_size_bounds st :
  loop_cond st = true -> size_min st <= mid_size st <= size_max st.
Proof.
  unfold loop_cond, mid_size. intros Hc. apply Z.leb_le in Hc. split.
  - apply Z.div_le_lower_bound; lia.
  - apply Z.div_le_upper_bound; lia.
Qed.

(** One iteration never raises: it either records a fitting midpoint and
    raises the lower bound, or lowers the upper bound. *)
Lemma loop_body_cases st :
  (good (mid_size st) /\
   body st = inr (SearchState (mid_size st + 1) (size_max st) (mid_size st)))
  \/
  (~ good (mid_size st) /\
   body st = inr (SearchState (size_min st) (mid_size st - 1) (optimal_size st))).
Proof.
  unfold loop_body, probe, try_except, res_bind, fits_at.
  destruct (ImageFont_truetype font_path (mid_size st)) as [e|font] eqn:Hf.
  - right. split; [|reflexivity]. intros (f & bb & Hf' & _). congruence.
  - destruct (getbbox font text) as [e|bb] eqn:Hb.
    + right. split; [|reflexivity]. intros (f & bb & Hf' & Hb' & _). congruence.
    + destruct (fits target_width target_height bb) eqn:Hfit.
      * left. split; [|reflexivity]. apply fits_true_iff in Hfit. eauto.
      * right. split; [|reflexivity]. intros (f & bb' & Hf' & Hb' & Hw).
        assert (f = font) by congruence. subst f.
        assert (bb' = bb) by congruence. subst bb'.
        apply fits_true_iff in Hw. congruence.
Qed.

(** A property kept by every iteration holds when the loop stops, and the
    loop does stop, with the bounds crossed. *)
Lemma search_loop_invariant (Inv : search_state -> Prop) :
  (forall st st', Inv st -> loop_cond st = true -> body st = inr st' -> Inv st') ->
  forall st, Inv st ->
  exists st', loop st = inr st' /\ Inv st' /\ size_max st' < size_min st'.
Proof.
  intros Hstep st. remember (span st) as n eqn:Hn. revert st Hn.
  induction n as [n IH] using lt_wf_ind. intros st Hn Hinv.
  rewrite search_loop_once. destruct (loop_cond st) eqn:Hc.
  - destruct (loop_body_cases st) as [[_ Hb]|[_ Hb]]; rewrite Hb;
      (eapply IH; [|reflexivity|eapply Hstep; eauto]); subst n;
      pose proof (mid_size_bounds st Hc); unfold span; simpl; lia.
  - exists st. unfold loop_cond in Hc. apply Z.leb_gt in Hc. auto.
Qed.

End FontSizeFacts.

Section FontSizeClaims.
Context {H : Host}.
Variables (text : string) (image_size : Z * Z) (font_path : string) (target_ratio : Q).

Local Abbreviation target_width := (inject_Z (fst image_size) * target_ratio)%Q.
Local Abbreviation target_height := (inject_Z (snd image_size) * target_ratio)%Q.
Local Abbreviation start :=
  (SearchState 10 (Z.min (fst image_size) (snd image_size)) 10).

(** The function is the loop run from [(10, min(width, height), 10)]. *)
Lemma calculate_font_size_loop :
  calculate_font_size text image_size font_path target_ratio =
  res_bind (search_loop text font_path target_width target_height start)
           (fun st => ok (optimal_size st)).
Proof. destruct image_size. reflexivity. Qed.

(** The result never leaves [10 .. max(10, min(width, height))], and the
    loop stops with the bounds crossed. *)
Lemma search_loop_result_bounds :
  exists st,
    search_loop text font_path target_width target_height start = inr st /\
    size_max st < size_min st /\
    10 <= optimal_size st <= Z.max 10 (Z.min (fst image_size) (snd image_size)).
Proof.
  set (U := Z.min (fst image_size) (snd image_size)).
  destruct (search_loop_invariant text font_path target_width target_height
    (fun st => 10 <= size_min st /\ size_max st <= U /\
               10 <= optimal_size st <= Z.max 10 U)) with (st := start)
    as (st & Hrun & (_ & _ & Hopt) & Hcross).
  - intros st st' (Hlo & Hhi & Hopt) Hc Hb.
    pose proof (mid_size_bounds st Hc) as Hmid.
    destruct (loop_body_cases text font_path target_width target_height st)
      as [[_ Hb']|[_ Hb']]; rewrite Hb' in Hb; injection Hb as <-; simpl; lia.
  - simpl. fold U. lia.
  - exists st. auto.
Qed.

(** When no size of the range fits, the result is the initial lower bound. *)
Lemma search_loop_none_feasible :
  (forall S, in_range image_size S -> ~ feasible text image_size font_path target_ratio S) ->
  exists st,
    search_loop text font_path target_width target_height start = inr st /\
    optimal_size st = 10.
Proof.
  intros Hnone.
  set (U := Z.min (fst image_size) (snd image_size)).
  destruct (search_loop_invariant text font_path target_width target_height
    (fun st => 10 <= size_min st /\ size_max st <= U /\ optimal_size st = 10))
    with (st := start) as (st & Hrun & (_ & _ & Hopt) & _).
  - intros st st' (Hlo & Hhi & Hopt) Hc Hb.
    pose proof (mid_size_bounds st Hc) as Hmid.
    destruct (loop_body_cases text font_path target_width target_height st)
      as [[Hgood Hb']|[_ Hb']]; rewrite Hb' in Hb; injection Hb as <-; simpl.
    + exfalso. apply (Hnone (mid_size st)); [unfold in_range; fold U; lia | exact Hgood].
    + lia.
  - simpl. fold U. lia.
  - exists st. auto.
Qed.

(** With feasibility downward closed, the loop ends on the largest feasible
    size of the range, if there is one. *)
Lemma search_loop_max_feasible :
  downward_closed text image_size font_path target_ratio ->
  (exists S, in_range image_size S /\ feasible text image_size font_path target_ratio S) ->
  exists st,
    search_loop text font_path target_width target_height start = inr st /\
    max_feasible text image_size font_path target_ratio (optimal_size st).
Proof.
  intros Hmono (S & HSr & HSf).
  set (U := Z.min (fst image_size) (snd image_size)).
  set (good := feasible text image_size font_path target_ratio).
  destruct (search_loop_invariant text font_path target_width target_height
    (fun st => 10 <= size_min st /\ size_max st <= U /\
               (10 < size_min st -> size_min st <= U + 1) /\
               (forall s, 10 <= s < size_min st -> good s) /\
               (forall s, size_max st < s <= U -> ~ good s) /\
               ((size_min st = 10 /\ optimal_size st = 10) \/
                (10 < size_min st /\ optimal_size st = size_min st - 1))))
    with (st := start) as (st & Hrun & (Hlo & Hhi & Hnext & Hbelow & Habove & Hopt) & Hcross).
  - intros st st' (Hlo & Hhi & Hnext & Hbelow & Habove & Hopt) Hc Hb.
    pose proof (mid_size_bounds st Hc) as Hmid.
    assert (Hmr : in_range image_size (mid_size st)) by (unfold in_range; fold U; lia).
    destruct (loop_body_cases text font_path target_width target_height st)
      as [[Hgood Hb']|[Hbad Hb']]; rewrite Hb' in Hb; injection Hb as <-; simpl.
    + repeat split; try lia.
      * intros s Hs. apply (Hmono s (mid_size st)); try assumption; try lia.
        unfold in_range; fold U; lia.
      * assumption.
    + repeat split; try lia; try assumption.
      intros s Hs Hgs. destruct (Z_lt_le_dec (size_max st) s) as [Hgt|Hle].
      * apply (Habove s); [lia | exact Hgs].
      * apply Hbad. apply (Hmono (mid_size st) s); try assumption; try lia.
        unfold in_range; fold U; lia.
  - simpl. fold U. unfold in_range in HSr. fold U in HSr. repeat split; lia.
  - exists st. split; [exact Hrun|].
    assert (HS : S < size_min st).
    { destruct (Z_lt_le_dec (size_max st) S) as [Hgt|Hle]; [|lia].
      exfalso. apply (Habove S); [unfold in_range in HSr; fold U in HSr; lia | exact HSf]. }
    unfold in_range in HSr. fold U in HSr.
    destruct Hopt as [[Heq _]|[Hgt Hopt]]; [lia|]. rewrite Hopt.
    repeat split.
    + lia.
    + fold U. specialize (Hnext Hgt). lia.
    + apply Hbelow. lia.
    + intros s Hsr Hsf. unfold in_range in Hsr. fold U in Hsr.
      destruct (Z_lt_le_dec (size_max st) s) as [Hgt'|Hle]; [|lia].
      exfalso. apply (Habove s); [lia | exact Hsf].
Qed.

End FontSizeClaims.








(** ** The draw origin *)

(** C2.  The origin is [((width - (right - left)) // 2,
    (height - top - bottom) // 2)], both floored: twice each coordinate is
    the largest even number not above the numerator.  For the box
    [(0, 5, 40, 30)] on a 100x100 canvas it is [(30, 32)]. *)
Theorem text_origin_centered (canvas_width canvas_height left top right bottom : Z) :
  let origin := text_origin (canvas_width, canvas_height) (BBox left top right bottom) in
  origin = ((canvas_width - (right - left)) / 2, (canvas_height - top - bottom) / 2)
  /\ 2 * fst origin <= canvas_width - (right - left) < 2 * fst origin + 2
  /\ 2 * snd origin <= canvas_height - top - bottom < 2 * snd origin + 2
  /\ text_origin (100, 100) (BBox 0 5 40 30) = (30, 32).
Proof.
  unfold text_origin. simpl. repeat split.
  - apply Z.mul_div_le. lia.
  - pose proof (Z.mul_succ_div_gt (canvas_width - (right - left)) 2). lia.
  - apply Z.mul_div_le. lia.
  - pose proof (Z.mul_succ_div_gt (canvas_height - top - bottom) 2). lia.
Qed.

(** ** Colours *)

Lemma colormap_get_hash (s : string) :
  ImageColor.colormap_get ImageColor.colormap (String "#" s) = None.
Proof. reflexivity. Qed.

Lemma hex_digit_not_newline (c : ascii) (d : Z) :
  ImageColor.hex_digit c = Some d -> Ascii.eqb c "010" = false.
Proof.
  intros Hd. destruct (Ascii.eqb_spec c "010") as [->|]; [|reflexivity].
  vm_compute in Hd. discriminate.
Qed.

Lemma hex_digits_cons (c : ascii) (s : string) (d : Z) (ds : list Z) :
  ImageColor.hex_digit c = Some d -> ImageColor.hex_digits s = Some ds ->
  ImageColor.hex_digits (String c s) = Some (d :: ds).
Proof.
  intros Hd Hds. simpl. rewrite (hex_digit_not_newline c d Hd), Hd, Hds. reflexivity.
Qed.

(** [getrgb] on a string that starts with [#] and has one of the hex forms. *)
Lemma getrgb_hex {H : Host} (digits : string) (t : list Z) :
  (String.length digits <= 9)%nat ->
  ImageColor.hex_form (String "#" (lower digits)) = Some t ->
  ImageColor.getrgb (String "#" digits) = inr t.
Proof.
  intros Hlen Hhex. unfold ImageColor.getrgb.
  replace (100 <? String.length (String "#" digits))%nat with false
    by (symmetry; apply Nat.ltb_ge; simpl; lia).
  change (lower (String "#" digits)) with (String "#" (lower digits)).
  rewrite colormap_get_hash, Hhex. reflexivity.
Qed.

(** C8.  The short and the long hex spelling of a colour parse to the same
    four channels, with alpha 255 when the spelling has no alpha digit:
    for hex digits [r], [g], [b], [a] (in either case), [#rgb] and [#rrggbb]
    both give [(17r, 17g, 17b, 255)], and [#rgba] and [#rrggbbaa] both give
    [(17r, 17g, 17b, 17a)].  In particular [#fff] and [#ffffff] are
    [(255, 255, 255, 255)] and [#0000] is [(0, 0, 0, 0)]. *)
Theorem parse_color_equivalent_spellings {H : Host} (c1 c2 c3 c4 : ascii) (r g b a : Z) :
  ImageColor.hex_digit (lower_ascii c1) = Some r ->
  ImageColor.hex_digit (lower_ascii c2) = Some g ->
  ImageColor.hex_digit (lower_ascii c3) = Some b ->
  ImageColor.hex_digit (lower_ascii c4) = Some a ->
  let s l := fold_right String EmptyString l in
  (parse_color (s ["#"; c1; c2; c3])%char = inr [17 * r; 17 * g; 17 * b; 255] /\
   parse_color (s ["#"; c1; c1; c2; c2; c3; c3])%char = inr [17 * r; 17 * g; 17 * b; 255] /\
   parse_color (s ["#"; c1; c2; c3; c4])%char = inr [17 * r; 17 * g; 17 * b; 17 * a] /\
   parse_color (s ["#"; c1; c1; c2; c2; c3; c3; c4; c4])%char
     = inr [17 * r; 17 * g; 17 * b; 17 * a])
  /\ parse_color "#fff" = inr [255; 255; 255; 255]
  /\ parse_color "#ffffff" = inr [255; 255; 255; 255]
  /\ parse_color "#0000" = inr [0; 0; 0; 0].
Proof.
  intros Hr Hg Hb Ha s.
  assert (Hnil : ImageColor.hex_digits "" = Some []) by reflexivity.
  assert (Hparse : forall digits t,
            (String.length digits <= 9)%nat ->
            ImageColor.hex_form (String "#" (lower digits)) = Some t ->
            parse_color (String "#" digits) =
            inr match t with [x; y; z; w] => [x; y; z; w] | _ => t ++ [255] end).
  { intros digits t Hlen Hhex. unfold parse_color, ImageColor.getcolor_RGBA.
    rewrite (getrgb_hex digits t Hlen Hhex). simpl.
    destruct t as [|x [|y [|z [|w [|v t]]]]]; reflexivity. }
  assert (H17 : forall x, 16 * x + x = 17 * x) by (intros; lia).
  (* the three closed equations are settled by [split] itself *)
  repeat split.
  - unfold s. simpl fold_right.
    rewrite (Hparse _ [17 * r; 17 * g; 17 * b]); [reflexivity | simpl; lia |].
    unfold ImageColor.hex_form. simpl lower.
    rewrite (hex_digits_cons _ _ r [g; b] Hr
               (hex_digits_cons _ _ g [b] Hg (hex_digits_cons _ _ b [] Hb Hnil))).
    rewrite <- !H17. reflexivity.
  - unfold s. simpl fold_right.
    rewrite (Hparse _ [17 * r; 17 * g; 17 * b]); [reflexivity | simpl; lia |].
    unfold ImageColor.hex_form. simpl lower.
    rewrite (hex_digits_cons _ _ r [r; g; g; b; b] Hr
              (hex_digits_cons _ _ r [g; g; b; b] Hr
                (hex_digits_cons _ _ g [g; b; b] Hg
                  (hex_digits_cons _ _ g [b; b] Hg
                    (hex_digits_cons _ _ b [b] Hb (hex_digits_cons _ _ b [] Hb Hnil)))))).
    rewrite <- !H17. reflexivity.
  - unfold s. simpl fold_right.
    rewrite (Hparse _ [17 * r; 17 * g; 17 * b; 17 * a]); [reflexivity | simpl; lia |].
    unfold ImageColor.hex_form. simpl lower.
    rewrite (hex_digits_cons _ _ r [g; b; a] Hr
              (hex_digits_cons _ _ g [b; a] Hg
                (hex_digits_cons _ _ b [a] Hb (hex_digits_cons _ _ a [] Ha Hnil)))).
    rewrite <- !H17. reflexivity.
  - unfold s. simpl fold_right.
    rewrite (Hparse _ [17 * r; 17 * g; 17 * b; 17 * a]); [reflexivity | simpl; lia |].
    unfold ImageColor.hex_form. simpl lower.
    rewrite (hex_digits_cons _ _ r [r; g; g; b; b; a; a] Hr
              (hex_digits_cons _ _ r [g; g; b; b; a; a] Hr
                (hex_digits_cons _ _ g [g; b; b; a; a] Hg
                  (hex_digits_cons _ _ g [b; b; a; a] Hg
                    (hex_digits_cons _ _ b [b; a; a] Hb
                      (hex_digits_cons _ _ b [a; a] Hb
                        (hex_digits_cons _ _ a [a] Ha
                          (hex_digits_cons _ _ a [] Ha Hnil)))))))).
    rewrite <- !H17. reflexivity.
Qed.

(** The digits [f], [F], [0] and [9] in both spellings. *)
Lemma parse_color_equivalent_spellings_witness :
  parse_color (H := Sim.linux) "#fF0" = inr [255; 255; 0; 255] /\
  parse_color (H := Sim.linux) "#ffFF00" = inr [255; 255; 0; 255] /\
  parse_color (H := Sim.linux) "#fF09" = inr [255; 255; 0; 153] /\
  parse_color (H := Sim.linux) "#ffFF0099" = inr [255; 255; 0; 153].
Proof.
  exact (proj1 (parse_color_equivalent_spellings (H := Sim.linux)
                  "f" "F" "0" "9" 15 15 0 9 eq_refl eq_refl eq_refl eq_refl)).
Defined.




(** ** Finding a font *)

Lemma substring_skip (pre s : string) (m : nat) :
  String.substring (String.length pre) m (pre +:+ s) = String.substring 0 m s.
Proof. induction pre as [|c pre IH]; simpl; [reflexivity | exact IH]. Qed.

Lemma substring_all (s : string) : String.substring 0 (String.length s) s = s.
Proof. induction s as [|c s IH]; simpl; [reflexivity | rewrite IH; reflexivity]. Qed.

Lemma substring_split (s : string) (k : nat) :
  (k <= String.length s)%nat ->
  s = String.substring 0 k s +:+ String.substring k (String.length s - k) s.
Proof.
  revert k. induction s as [|c s IH]; intros k Hk; simpl in *.
  - destruct k; reflexivity.
  - destruct k as [|k]; simpl.
    + rewrite substring_all. reflexivity.
    + change (String c s = String c (String.substring 0 k s
                                        +:+ String.substring k (String.length s - k) s)).
      f_equal. apply IH. lia.
Qed.

Lemma length_app_string (a b : string) :
  String.length (a +:+ b) = (String.length a + String.length b)%nat.
Proof. induction a as [|c a IH]; simpl; [reflexivity | rewrite IH; reflexivity]. Qed.

(** [s.endswith(suf)] holds exactly when [s] is some string followed by [suf]. *)
Lemma endswith_spec (s suf : string) :
  endswith s suf = true <-> exists stem, s = stem +:+ suf.
Proof.
  unfold endswith. rewrite andb_true_iff, Nat.leb_le, String.eqb_eq. split.
  - intros [Hlen Hsub].
    exists (String.substring 0 (String.length s - String.length suf) s).
    pose proof (substring_split s (String.length s - String.length suf)) as Hsp.
    replace (String.length s - (String.length s - String.length suf))%nat
      with (String.length suf) in Hsp by lia.
    rewrite Hsub in Hsp. apply Hsp. lia.
  - intros [stem ->]. rewrite length_app_string. split; [lia|].
    replace (String.length stem + String.length suf - String.length suf)%nat
      with (String.length stem) by lia.
    rewrite substring_skip. apply substring_all.
Qed.

Lemma is_font_file_spec {H : Host} (file : string) :
  is_font_file file = true <->
  exists stem, lower file = stem +:+ ".ttf" \/ lower file = stem +:+ ".otf".
Proof.
  unfold is_font_file. rewrite orb_true_iff, !endswith_spec. split.
  - intros [[stem Hs]|[stem Hs]]; exists stem; auto.
  - intros [stem [Hs|Hs]]; [left|right]; exists stem; exact Hs.
Qed.

Section FindFontFacts.
Context {H : Host}.

Lemma head_app_or {A} (l1 l2 : list A) :
  head (l1 ++ l2) = match head l1 with Some x => Some x | None => head l2 end.
Proof. destruct l1; reflexivity. Qed.

Lemma first_existing_head (paths : list string) (fs : FileSystem) :
  first_existing paths fs = head (List.filter (fun p => os_path_exists p fs) paths).
Proof.
  induction paths as [|p paths IH]; simpl; [reflexivity|].
  destruct (os_path_exists p fs); [reflexivity | exact IH].
Qed.

Lemma scan_files_head (root : string) (files : list string) :
  scan_files root files = head (map (os_path_join root) (List.filter is_font_file files)).
Proof.
  induction files as [|f files IH]; simpl; [reflexivity|].
  destruct (is_font_file f); [reflexivity | exact IH].
Qed.

Lemma scan_walk_head (walk : list (string * list string * list string)) :
  scan_walk walk =
  head (flat_map (fun '(root, _, files) =>
                    map (os_path_join root) (List.filter is_font_file files)) walk).
Proof.
  induction walk as [|[[root ds] files] walk IH]; simpl; [reflexivity|].
  rewrite head_app_or, <- scan_files_head, IH.
  destruct (scan_files root files); reflexivity.
Qed.

Lemma scan_dirs_head (dirs : list string) (fs : FileSystem) :
  scan_dirs dirs fs = head (fallback_candidates dirs fs).
Proof.
  unfold fallback_candidates.
  induction dirs as [|d dirs IH]; simpl; [reflexivity|].
  rewrite head_app_or. destruct (os_path_exists d fs).
  - unfold fonts_below. rewrite <- scan_walk_head, IH.
    destruct (scan_walk (os_walk d fs)); reflexivity.
  - exact IH.
Qed.

End FindFontFacts.

(** C6 (amended).  The well-known paths are one of three lists, chosen by
    the platform category; [find_system_font] returns the first of them
    that exists.  If none exists it walks ONE list of font roots, the same
    for every category, skipping the roots that do not exist, and returns
    the first file whose lower-cased name ends in [.ttf] or [.otf], joined
    to the directory it was found in; with no font at all it raises
    [FileNotFoundError]. *)
Theorem find_system_font_first_match {H : Host} (fs : FileSystem) :
  potential_fonts =
    match platform_category H with
    | WindowsLike =>
        [ "C:\Windows\Fonts\Arial.ttf"; "C:\Windows\Fonts\Arial Bold.ttf";
          "C:\Windows\Fonts\Calibri.ttf"; "C:\Windows\Fonts\Segoe UI Bold.ttf" ]
    | MacLike =>
        [ "/System/Library/Fonts/Helvetica.ttc"; "/System/Library/Fonts/SFCompact-Bold.otf";
          "/Library/Fonts/Arial.ttf"; "/Library/Fonts/Arial Bold.ttf" ]
    | UnixLike =>
        [ "/usr/share/fonts/truetype/dejavu/DejaVuSans-Bold.ttf";
          "/usr/share/fonts/truetype/liberation/LiberationSans-Bold.ttf";
          "/usr/share/fonts/truetype/ubuntu/Ubuntu-Bold.ttf";
          "/usr/share/fonts/TTF/Arial.ttf" ]
    end
  /\ font_dirs =
       [ "/usr/share/fonts"; "/usr/local/share/fonts"; os_path_expanduser "~/.fonts";
         "C:\Windows\Fonts"; "/Library/Fonts"; "/System/Library/Fonts" ]
  /\ (forall file, is_font_file file = true <->
                    exists stem, lower file = stem +:+ ".ttf" \/ lower file = stem +:+ ".otf")
  /\ find_system_font fs =
       match head (List.filter (fun p => os_path_exists p fs) potential_fonts) with
       | Some font_path => inr font_path
       | None =>
           match head (fallback_candidates font_dirs fs) with
           | Some found => inr found
           | None =>
               raise FileNotFoundError
                 "Could not find any usable font. Please specify a font with --font-path."
           end
       end.
Proof.
  split; [|split; [|split]].
  - unfold potential_fonts, platform_category.
    destruct (String.eqb os_name "nt"); [reflexivity|].
    destruct (String.eqb sys_platform "darwin"); reflexivity.
  - reflexivity.
  - apply is_font_file_spec.
  - unfold find_system_font. rewrite first_existing_head, scan_dirs_head. reflexivity.
Qed.

(** C6 as stated fails: the list of font roots is not specific to the
    platform.  A windows-like and a unix-like host walk the same roots, and
    on the windows-like host the font returned is one found below
    [/usr/share/fonts]. *)
Lemma font_roots_shared_by_all_platforms :
  platform_category Sim.windows = WindowsLike /\
  platform_category Sim.linux = UnixLike /\
  font_dirs (H := Sim.windows) = font_dirs (H := Sim.linux) /\
  find_system_font (H := Sim.windows) Sim.one_font_fs
    = inr "/usr/share/fonts/extra/Mono.OTF".
Proof. repeat split. Qed.

(** ** Generating images *)

Section GenerateFacts.
Context {H : Host}.
Variables (size : Z * Z) (bg_color text_color format : string).
Variables (font_path : option string) (font_size : option Z).
Variables (jpg_quality : Z) (padding : Q).

Local Abbreviation generate number output_path overwrite :=
  (generate_placeholder_image number output_path size bg_color text_color format
     font_path font_size jpg_quality overwrite padding).

(** The early return of lines 181-183. *)
Lemma generate_skip number output_path (w : World) :
  os_path_exists output_path (fs w) = true ->
  generate number output_path false w =
  (inr output_path,
   MkWorld (fs w) (stdout w ++ ["Skipping " +:+ output_path +:+ " (already exists)"])).
Proof.
  intros Hex. unfold generate_placeholder_image, io_bind, io_read, print, io_ret.
  rewrite Hex. reflexivity.
Qed.

(** A successful call returns the path it was given, and no call removes a
    printed line. *)
Lemma generate_outcome number output_path overwrite (w w' : World) r :
  generate number output_path overwrite w = (r, w') ->
  (forall path, r = inr path -> path = output_path) /\
  (exists lines, stdout w' = stdout w ++ lines).
Proof.
  unfold generate_placeholder_image, save_image, io_bind, io_read, io_lift, io_fs,
    print, io_ret.
  intros Hrun.
  repeat (case_match; simplify_eq/=);
    (split; [intros; simplify_eq/=; reflexivity|]);
    first [ by (exists []; rewrite app_nil_r) | by eexists ].
Qed.

End GenerateFacts.

Section BatchFacts.
Context {H : Host}.
Variables (output_dir : string) (start_num : Z) (size : Z * Z).
Variables (bg_color text_color format prefix : string).
Variables (font_size : option Z) (font_path : option string).
Variables (jpg_quality : Z) (overwrite : bool) (padding : Q).

Local Abbreviation path_of := (image_path output_dir start_num format prefix).
Local Abbreviation generate i :=
  (generate_placeholder_image (start_num + i) (path_of i) size bg_color text_color format
     font_path font_size jpg_quality overwrite padding).
Local Abbreviation step :=
  (images_step output_dir start_num size bg_color text_color format prefix
     font_size font_path jpg_quality overwrite padding).
Local Abbreviation run :=
  (images_loop output_dir start_num size bg_color text_color format prefix
     font_size font_path jpg_quality overwrite padding).

(** The image at index [i] has its line on the output: generated or failed. *)
Local Abbreviation reported i w :=
  (("Generated: " +:+ path_of i) ∈ stdout w \/
   exists msg, ("Error generating " +:+ path_of i +:+ ": " +:+ msg) ∈ stdout w).

Lemma images_step_error i files (w w' : World) e :
  generate i w = (inl e, w') ->
  step i files w =
  (inr files,
   MkWorld (fs w') (stdout w' ++ ["Error generating " +:+ path_of i +:+ ": " +:+ exn_msg e])).
Proof. intros Hgen. unfold images_step. rewrite Hgen. reflexivity. Qed.

Lemma images_step_ok i files (w w' : World) path :
  generate i w = (inr path, w') ->
  step i files w =
  (inr (files ++ [path_of i]), MkWorld (fs w') (stdout w' ++ ["Generated: " +:+ path_of i])).
Proof.
  intros Hgen. unfold images_step. rewrite Hgen.
  destruct (generate_outcome _ _ _ _ _ _ _ _ _ _ _ _ _ _ Hgen) as [Hpath _].
  rewrite (Hpath path eq_refl). reflexivity.
Qed.

(** One iteration never raises, keeps the lines printed so far and adds the
    line of its image. *)
Lemma images_step_total i files (w : World) :
  exists files' w',
    step i files w = (inr files', w') /\
    (exists lines, stdout w' = stdout w ++ lines) /\
    reported i w'.
Proof.
  destruct (generate i w) as [[e|path] w1] eqn:Hgen;
    destruct (generate_outcome _ _ _ _ _ _ _ _ _ _ _ _ _ _ Hgen) as [_ [lines Hlines]].
  - rewrite (images_step_error i files w w1 e Hgen). do 2 eexists.
    split; [reflexivity|]. simpl. split.
    + rewrite Hlines, <- app_assoc. eauto.
    + right. exists (exn_msg e). apply elem_of_app. right. apply list_elem_of_singleton.
      reflexivity.
  - rewrite (images_step_ok i files w w1 path Hgen). do 2 eexists.
    split; [reflexivity|]. simpl. split.
    + rewrite Hlines, <- app_assoc. eauto.
    + left. apply elem_of_app. right. apply list_elem_of_singleton. reflexivity.
Qed.

(** The loop never raises and every index gets its line. *)
Lemma images_loop_total indices files (w : World) :
  exists files' w',
    run indices files w = (inr files', w') /\
    (exists lines, stdout w' = stdout w ++ lines) /\
    forall i, i ∈ indices -> reported i w'.
Proof.
  revert files w. induction indices as [|i indices IH]; intros files w.
  - exists files, w. split; [reflexivity|]. split.
    + exists []. rewrite app_nil_r. reflexivity.
    + intros i Hi. inversion Hi.
  - destruct (images_step_total i files w) as (files1 & w1 & Hstep & [l1 Hl1] & Hrep).
    destruct (IH files1 w1) as (files2 & w2 & Hrun & [l2 Hl2] & Hreps).
    exists files2, w2. split; [|split].
    + simpl. unfold io_bind. rewrite Hstep. exact Hrun.
    + rewrite Hl2, Hl1, <- app_assoc. eauto.
    + intros j Hj. apply elem_of_cons in Hj as [->|Hj]; [|auto].
      rewrite Hl2. destruct Hrep as [Hg|[msg Hm]].
      * left. apply elem_of_app. auto.
      * right. exists msg. apply elem_of_app. auto.
Qed.

End BatchFacts.

Section SkipFacts.
Context {H : Host}.
Variables (output_dir : string) (start_num : Z) (size : Z * Z).
Variables (bg_color text_color format prefix : string).
Variables (font_size : option Z) (font_path : option string).
Variables (jpg_quality : Z) (padding : Q).

Local Abbreviation path_of := (image_path output_dir start_num format prefix).
Local Abbreviation step :=
  (images_step output_dir start_num size bg_color text_color format prefix
     font_size font_path jpg_quality false padding).
Local Abbreviation run :=
  (images_loop output_dir start_num size bg_color text_color format prefix
     font_size font_path jpg_quality false padding).

(** With [overwrite] off, an image that is already there costs two lines
    and lands in the list. *)
Lemma images_step_skip i files (w : World) :
  os_path_exists (path_of i) (fs w) = true ->
  step i files w =
  (inr (files ++ [path_of i]), MkWorld (fs w) (stdout w ++ skipped_report (path_of i))).
Proof.
  intros Hex. unfold images_step. rewrite generate_skip by exact Hex.
  unfold io_bind, print, io_ret, skipped_report. simpl. rewrite <- app_assoc. reflexivity.
Qed.

Lemma images_loop_skip indices files (w : World) :
  (forall i, i ∈ indices -> os_path_exists (path_of i) (fs w) = true) ->
  run indices files w =
  (inr (files ++ map path_of indices),
   MkWorld (fs w) (stdout w ++ flat_map (fun i => skipped_report (path_of i)) indices)).
Proof.
  revert files w. induction indices as [|i indices IH]; intros files w Hall.
  - simpl. unfold io_ret. rewrite !app_nil_r. destruct w. reflexivity.
  - simpl. unfold io_bind. rewrite images_step_skip by (apply Hall; left).
    rewrite IH by (intros j Hj; apply Hall; right; exact Hj).
    simpl. rewrite <- !app_assoc. reflexivity.
Qed.

End SkipFacts.

(** C7.  When the output path exists and [overwrite] is off,
    [generate_placeholder_image] returns the path, prints the "Skipping"
    line and leaves the file system as it was: no directory is made, no
    image is saved, and the file keeps its bytes. *)
Theorem existing_file_is_left_alone {H : Host}
    (number : Z) (output_path : string) (size : Z * Z) (bg_color text_color format : string)
    (font_path : option string) (font_size : option Z) (jpg_quality : Z) (padding : Q)
    (w : World) :
  os_path_exists output_path (fs w) = true ->
  let outcome := generate_placeholder_image number output_path size bg_color text_color
                   format font_path font_size jpg_quality false padding w in
  outcome.1 = inr output_path /\
  fs outcome.2 = fs w /\
  file_bytes output_path (fs outcome.2) = file_bytes output_path (fs w) /\
  stdout outcome.2 = stdout w ++ ["Skipping " +:+ output_path +:+ " (already exists)"].
Proof.
  intros Hex outcome. subst outcome. rewrite generate_skip by exact Hex.
  repeat split.
Qed.

(** The image [out/img_2.png] is on the disk with the bytes ["old bytes"]
    and still has them after the call. *)
Lemma existing_file_is_left_alone_witness :
  let outcome := generate_placeholder_image (H := Sim.linux) 2 "out/img_2.png" (800, 600)
                   "#cccccc" "#333333" "png" None None 90 false (2 # 10)
                   (Sim.world Sim.linux Sim.taken_fs) in
  outcome.1 = inr "out/img_2.png" /\
  @file_bytes Sim.linux "out/img_2.png" (fs outcome.2) = Some "old bytes" /\
  stdout outcome.2 = ["Skipping out/img_2.png (already exists)"].
Proof.
  destruct (existing_file_is_left_alone (H := Sim.linux) 2 "out/img_2.png" (800, 600)
              "#cccccc" "#333333" "png" None None 90 (2 # 10)
              (Sim.world Sim.linux Sim.taken_fs) eq_refl) as (Hres & _ & Hbytes & Hout).
  split; [exact Hres|]. split; [rewrite Hbytes; reflexivity | exact Hout].
Defined.

(** C10.  With [overwrite] off, a path that already exists is returned by
    [generate_placeholder_image] as a success; the batch appends it to the
    list it returns and prints ["Generated: <path>"] for it right after the
    "Skipping" line, and a batch whose images all exist returns all their
    paths without changing the file system. *)
Theorem skipped_images_count_as_generated {H : Host}
    (output_dir : string) (start_num : Z) (size : Z * Z)
    (bg_color text_color format prefix : string)
    (font_size : option Z) (font_path : option string) (jpg_quality : Z) (padding : Q) :
  let path_of := image_path output_dir start_num format prefix in
  (forall i (w : World),
      os_path_exists (path_of i) (fs w) = true ->
      (generate_placeholder_image (start_num + i) (path_of i) size bg_color text_color
         format font_path font_size jpg_quality false padding w).1 = inr (path_of i))
  /\ (forall i files (w : World),
      os_path_exists (path_of i) (fs w) = true ->
      images_step output_dir start_num size bg_color text_color format prefix
        font_size font_path jpg_quality false padding i files w =
      (inr (files ++ [path_of i]),
       MkWorld (fs w) (stdout w ++ [ "Skipping " +:+ path_of i +:+ " (already exists)";
                                      "Generated: " +:+ path_of i ])))
  /\ (forall count (w : World) fs1,
      os_makedirs output_dir (fs w) = (inr tt, fs1) ->
      (forall i, 0 <= i < count -> os_path_exists (path_of i) fs1 = true) ->
      generate_placeholder_images output_dir start_num size bg_color text_color format
        prefix font_size font_path jpg_quality false padding count w =
      (inr (map path_of (seqZ 0 count)),
       MkWorld fs1 (stdout w ++ flat_map (fun i => skipped_report (path_of i))
                                         (seqZ 0 count)))).
Proof.
  intros path_of. split; [|split].
  - intros i w Hex. rewrite generate_skip by exact Hex. reflexivity.
  - intros i files w Hex. apply images_step_skip. exact Hex.
  - intros count w fs1 Hmk Hall. unfold generate_placeholder_images, io_bind, io_fs.
    rewrite Hmk. rewrite images_loop_skip.
    + reflexivity.
    + intros i Hi. apply elem_of_seqZ in Hi. apply Hall. lia.
Qed.

(** In a batch of three where only image 2 is on the disk, its path is
    returned between the two new ones and is reported as generated. *)
Lemma skipped_images_count_as_generated_witness :
  images_step (H := Sim.linux) "out" 1 (800, 600) "#cccccc" "#333333" "png" "img_"
    None (Some "font.ttf") 90 false (2 # 10) 1 ["out/img_1.png"]
    (Sim.world Sim.linux Sim.taken_fs)
  = (inr ["out/img_1.png"; "out/img_2.png"],
     MkWorld (H := Sim.linux) Sim.taken_fs ["Skipping out/img_2.png (already exists)";
                           "Generated: out/img_2.png"])
  /\ let outcome := generate_placeholder_images (H := Sim.linux) "out" 1 (800, 600) "#cccccc"
                      "#333333" "png" "img_" None (Some "font.ttf") 90 false (2 # 10) 3
                      (Sim.world Sim.linux Sim.taken_fs) in
     outcome.1 = inr ["out/img_1.png"; "out/img_2.png"; "out/img_3.png"] /\
     stdout outcome.2 = [ "Generated: out/img_1.png";
                          "Skipping out/img_2.png (already exists)";
                          "Generated: out/img_2.png";
                          "Generated: out/img_3.png" ] /\
     @file_bytes Sim.linux "out/img_2.png" (fs outcome.2) = Some "old bytes".
Proof.
  split.
  - exact (proj1 (proj2 (skipped_images_count_as_generated (H := Sim.linux) "out" 1
                           (800, 600) "#cccccc" "#333333" "png" "img_" None
                           (Some "font.ttf") 90 (2 # 10)))
             1 ["out/img_1.png"] (Sim.world Sim.linux Sim.taken_fs) eq_refl).
  - vm_compute. repeat split.
Defined.



(** * Further properties *)

(** ** The search: range, soundness, cost, padding *)

Section FontSizeMore.
Context {H : Host}.
Variables (text : string) (image_size : Z * Z) (font_path : string) (target_ratio : Q).

Local Abbreviation target_width := (inject_Z (fst image_size) * target_ratio)%Q.
Local Abbreviation target_height := (inject_Z (snd image_size) * target_ratio)%Q.
Local Abbreviation start :=
  (SearchState 10 (Z.min (fst image_size) (snd image_size)) 10).

(** The size the loop ends on is the initial 10 or a size of the range that
    was measured and fits. *)
Lemma search_loop_sound :
  exists st,
    search_loop text font_path target_width target_height start = inr st /\
    (optimal_size st = 10 \/
     (in_range image_size (optimal_size st) /\
      feasible text image_size font_path target_ratio (optimal_size st))).
Proof.
  set (U := Z.min (fst image_size) (snd image_size)).
  destruct (search_loop_invariant text font_path target_width target_height
    (fun st => 10 <= size_min st /\ size_max st <= U /\
               (optimal_size st = 10 \/
                (in_range image_size (optimal_size st) /\
                 feasible text image_size font_path target_ratio (optimal_size st)))))
    with (st := start) as (st & Hrun & (_ & _ & Hopt) & _).
  - intros st st' (Hlo & Hhi & Hopt) Hc Hb.
    pose proof (mid_size_bounds st Hc) as Hmid.
    destruct (loop_body_cases text font_path target_width target_height st)
      as [[Hgood Hb']|[_ Hb']]; rewrite Hb' in Hb; injection Hb as <-; simpl.
    + split; [lia|]. split; [lia|]. right. split; [|exact Hgood].
      unfold in_range. fold U. lia.
    + split; [lia|]. split; [lia|]. exact Hopt.
  - simpl. fold U. split; [lia|]. split; [lia|]. left. reflexivity.
  - exists st. auto.
Qed.

End FontSizeMore.

Section FontSizeCost.
Context {H : Host}.
Variables (text : string) (font_path : string).
Variables (target_width target_height : Q).

Local Abbreviation body := (loop_body text font_path target_width target_height).
Local Abbreviation loop := (search_loop text font_path target_width target_height).
Local Abbreviation steps := (search_steps text font_path target_width target_height).

(** One iteration leaves at most half of the sizes between the bounds. *)
Lemma loop_body_halves st st' :
  loop_cond st = true -> body st = inr st' -> (2 * span st' <= span st)%nat.
Proof.
  intros Hc Hb. pose proof (mid_size_bounds st Hc) as Hmid.
  assert (Hm1 : 2 * mid_size st <= size_min st + size_max st)
    by (unfold mid_size; apply Z.mul_div_le; lia).
  assert (Hm2 : size_min st + size_max st < 2 * mid_size st + 2).
  { unfold mid_size. pose proof (Z.mul_succ_div_gt (size_min st + size_max st) 2). lia. }
  unfold span.
  destruct (loop_body_cases text font_path target_width target_height st)
    as [[_ Hb']|[_ Hb']]; rewrite Hb' in Hb; injection Hb as <-; simpl; lia.
Qed.

Lemma span_zero st : span st = 0%nat -> loop_cond st = false.
Proof. unfold span, loop_cond. intros Hs. apply Z.leb_gt. lia. Qed.

(** A budget above the binary logarithm of the number of sizes is enough
    to run the loop to its end. *)
Lemma search_steps_enough budget st :
  (span st = 0 \/ Nat.log2 (span st) < budget)%nat ->
  steps budget st = loop st.
Proof.
  revert st. induction budget as [|budget IH]; intros st Hb.
  - destruct Hb as [Hz|Hb]; [|lia].
    rewrite search_loop_once, (span_zero st Hz). reflexivity.
  - rewrite search_loop_once. simpl. destruct (loop_cond st) eqn:Hc; [|reflexivity].
    destruct (body st) as [e|st'] eqn:Hbody; [reflexivity|].
    apply IH. pose proof (loop_body_halves st st' Hc Hbody) as Hhalf.
    destruct Hb as [Hz|Hb]; [rewrite (span_zero st Hz) in Hc; discriminate|].
    destruct (span st') as [|k] eqn:Hk; [left; reflexivity|right].
    assert (Hlog : (S (Nat.log2 (S k)) <= Nat.log2 (span st))%nat).
    { rewrite <- Nat.log2_double by lia. apply Nat.log2_le_mono. lia. }
    lia.
Qed.

End FontSizeCost.

(** A size that fits under a ratio fits under every larger one. *)
Lemma feasible_ratio_mono {H : Host} (text : string) (width height : Z)
    (font_path : string) (r r' : Q) (S : Z) :
  0 <= width -> 0 <= height -> (r <= r')%Q ->
  feasible text (width, height) font_path r S ->
  feasible text (width, height) font_path r' S.
Proof.
  intros Hw Hh Hr (font & bb & Hf & Hb & Hwd & Hht).
  assert (Hscale : forall d, 0 <= d -> (inject_Z d * r <= inject_Z d * r')%Q).
  { intros d Hd. rewrite (Qmult_comm (inject_Z d) r), (Qmult_comm (inject_Z d) r').
    apply Qmult_le_compat_r; [exact Hr|]. unfold Qle. simpl. lia. }
  exists font, bb. repeat split; try assumption; simpl in *.
  - eapply Qle_trans; [exact Hwd | apply Hscale; exact Hw].
  - eapply Qle_trans; [exact Hht | apply Hscale; exact Hh].
Qed.





(** ** The ink box on the canvas *)

(** X4.  Text drawn at the origin has its ink between [y + top] and
    [y + bottom]: the margins above and below the ink differ by at most one
    pixel.  Horizontally the ink lies between [x + left] and [x + right];
    the origin ignores [left], so the right margin exceeds the left one by
    [-2 * left] or [1 - 2 * left]: the ink is centred only for a box that
    starts at 0.  A coordinate is negative exactly when the text does not
    fit: [x < 0] iff the box is wider than the canvas, [y < 0] iff
    [top + bottom] exceeds the height. *)
Theorem text_origin_margins (canvas_width canvas_height left top right bottom : Z) :
  let origin := text_origin (canvas_width, canvas_height) (BBox left top right bottom) in
  let x := fst origin in
  let y := snd origin in
  0 <= (canvas_height - (y + bottom)) - (y + top) <= 1
  /\ 0 <= ((canvas_width - (x + right)) - (x + left)) + 2 * left <= 1
  /\ (x < 0 <-> canvas_width < right - left)
  /\ (y < 0 <-> canvas_height < top + bottom).
Proof.
  unfold text_origin. simpl.
  pose proof (Z.mul_div_le (canvas_width - (right - left)) 2) as Hx1.
  pose proof (Z.mul_succ_div_gt (canvas_width - (right - left)) 2) as Hx2.
  pose proof (Z.mul_div_le (canvas_height - top - bottom) 2) as Hy1.
  pose proof (Z.mul_succ_div_gt (canvas_height - top - bottom) 2) as Hy2.
  repeat split; lia.
Qed.

(** ** Which font is found *)

Section FindFontMore.
Context {H : Host}.

Lemma head_In {A} (l : list A) (x : A) : head l = Some x -> In x l.
Proof. destruct l; simpl; [discriminate|]. intros [= ->]. left. reflexivity. Qed.

Lemma head_None_nil {A} (l : list A) : head l = None <-> l = [].
Proof. destruct l; simpl; split; intros Hl; congruence. Qed.

(** The candidates of the fallback scan are exactly the font files that
    [os.walk] lists below a root that exists. *)
Lemma fallback_candidates_In (dirs : list string) (fs : FileSystem) (c : string) :
  In c (fallback_candidates dirs fs) <->
  exists font_dir root ds files file,
    In font_dir dirs /\ os_path_exists font_dir fs = true /\
    In (root, ds, files) (os_walk font_dir fs) /\
    In file files /\ is_font_file file = true /\ c = os_path_join root file.
Proof.
  unfold fallback_candidates. rewrite in_flat_map. split.
  - intros (font_dir & Hdir & Hc).
    destruct (os_path_exists font_dir fs) eqn:Hex; [|destruct Hc].
    unfold fonts_below in Hc. apply in_flat_map in Hc as ([[root ds] files] & Hw & Hc).
    apply in_map_iff in Hc as (file & <- & Hf). apply filter_In in Hf as [Hf Hfont].
    exists font_dir, root, ds, files, file. auto 10.
  - intros (font_dir & root & ds & files & file & Hdir & Hex & Hw & Hf & Hfont & ->).
    exists font_dir. split; [exact Hdir|]. rewrite Hex. unfold fonts_below.
    apply in_flat_map. exists (root, ds, files). split; [exact Hw|].
    apply in_map. apply filter_In. auto.
Qed.

End FindFontMore.

(** X5.  A path returned by [find_system_font] is a well-known path that
    exists, or a file with a [.ttf]/[.otf] name that [os.walk] lists below
    an existing font root, joined to its directory.  The function raises
    exactly when there is neither: no well-known path exists and no
    existing root has such a file (a root holding only [.ttc] or [.woff]
    files does not count). *)
Theorem find_system_font_sound_complete {H : Host} (fs : FileSystem) :
  let scanned (found : string) :=
    exists font_dir root ds files file,
      In font_dir font_dirs /\ os_path_exists font_dir fs = true /\
      In (root, ds, files) (os_walk font_dir fs) /\
      In file files /\ is_font_file file = true /\ found = os_path_join root file in
  (forall found, find_system_font fs = inr found ->
     (In found potential_fonts /\ os_path_exists found fs = true) \/ scanned found)
  /\ ((exists e, find_system_font fs = inl e) <->
      (forall p, In p potential_fonts -> os_path_exists p fs = false) /\
      (forall found, ~ scanned found))
  /\ (forall e, find_system_font fs = inl e -> exn_cls e = FileNotFoundError).
Proof.
  intros scanned. unfold find_system_font.
  rewrite first_existing_head, scan_dirs_head.
  destruct (head (List.filter (fun p => os_path_exists p fs) potential_fonts))
    as [p|] eqn:Hp.
  - apply head_In, filter_In in Hp as [Hin Hex]. split; [|split].
    + intros found [= <-]. left. auto.
    + split; [intros [e He]; discriminate|].
      intros [Hnone _]. rewrite (Hnone p Hin) in Hex. discriminate.
    + intros e He. discriminate.
  - apply head_None_nil in Hp.
    assert (Hnone : forall p, In p potential_fonts -> os_path_exists p fs = false).
    { intros p Hin. destruct (os_path_exists p fs) eqn:Hex; [|reflexivity].
      assert (Hf : In p (List.filter (fun p => os_path_exists p fs) potential_fonts))
        by (apply filter_In; auto).
      rewrite Hp in Hf. destruct Hf. }
    destruct (head (fallback_candidates font_dirs fs)) as [c|] eqn:Hc.
    + apply head_In, fallback_candidates_In in Hc. split; [|split].
      * intros found [= <-]. right. exact Hc.
      * split; [intros [e He]; discriminate|].
        intros [_ Hno]. destruct (Hno c Hc).
      * intros e He. discriminate.
    + apply head_None_nil in Hc. split; [|split].
      * intros found Hf. discriminate.
      * split; [|intros _; eexists; reflexivity].
        intros _. split; [exact Hnone|].
        intros found Hs. apply fallback_candidates_In in Hs. rewrite Hc in Hs. destruct Hs.
      * intros e [= <-]. reflexivity.
Qed.

(** ** What a generated image is made of *)

(** X6.  When [generate_placeholder_image] succeeds without skipping, every
    step of the pipeline succeeded with the values of the previous ones:
    the font path is the given one or the one [find_system_font] finds;
    both colours parsed; the canvas has mode RGB with three channels for
    [jpg] and RGBA otherwise; the font was loaded at the given size or at
    the size [calculate_font_size] returns for the ratio [1 - 2 * padding];
    the decimal numeral of [number] was drawn at [text_origin]; the parent
    directory of the output path was made; the image was saved to the
    output path itself, as JPEG for [jpg], WEBP for [webp] and PNG for
    every other format string; nothing was printed. *)
Theorem generate_placeholder_image_success {H : Host}
    (number : Z) (output_path : string) (size : Z * Z) (bg_color text_color format : string)
    (font_path : option string) (font_size : option Z) (jpg_quality : Z)
    (overwrite : bool) (padding : Q) (w w' : World) (path : string) :
  os_path_exists output_path (fs w) && negb overwrite = false ->
  generate_placeholder_image number output_path size bg_color text_color format
    font_path font_size jpg_quality overwrite padding w = (inr path, w') ->
  exists font_file bg_rgba text_rgba canvas n font text_bbox img fs1,
    (if not_font_path font_path then find_system_font (fs w) = inr font_file
     else font_path = Some font_file) /\
    parse_color bg_color = inr bg_rgba /\
    parse_color text_color = inr text_rgba /\
    Image_new (image_mode format) size
      (if String.eqb format "jpg" then take 3 bg_rgba else bg_rgba) = inr canvas /\
    match font_size with
    | Some given => n = given
    | None => calculate_font_size (pretty number) size font_file (1 - 2 * padding) = inr n
    end /\
    ImageFont_truetype font_file n = inr font /\
    getbbox font (pretty number) = inr text_bbox /\
    draw_text canvas (text_origin size text_bbox) (pretty number) font
      (if String.eqb format "jpg" then take 3 text_rgba else text_rgba) = inr img /\
    os_makedirs (os_path_dirname (os_path_abspath output_path)) (fs w) = (inr tt, fs1) /\
    Image_save img output_path (encoder format jpg_quality).1 (encoder format jpg_quality).2 fs1
      = (inr tt, fs w') /\
    stdout w' = stdout w /\
    path = output_path.
Proof.
  unfold generate_placeholder_image, save_image, load_font, try_except, res_bind,
    io_bind, io_read, io_lift, io_fs, print, io_ret, image_mode, encoder, ok,
    not_font_path.
  intros Hskip Hrun. rewrite Hskip in Hrun. destruct font_path as [given_path|].
  all: repeat (case_match; simplify_eq/=);
    repeat match goal with u : unit |- _ => destruct u end;
    do 9 eexists; repeat split; eauto.
Qed.

(** Image 1 of a default batch on the simulated host: the search gives 600
    pixels and the font is loaded at that size. *)
Lemma generate_placeholder_image_success_witness :
  exists font_file n font,
    calculate_font_size (H := Sim.linux) "1" (800, 600) font_file (1 - 2 * (2 # 10)) = inr n /\
    @ImageFont_truetype Sim.linux font_file n = inr font /\
    font_file = "font.ttf" /\ n = 600.
Proof.
  destruct (generate_placeholder_image_success (H := Sim.linux) 1 "out/img_1.png"
              (800, 600) "#cccccc" "#333333" "png" (Some "font.ttf") None 90 false (2 # 10)
              (Sim.world Sim.linux Sim.empty_fs)
              (generate_placeholder_image (H := Sim.linux) 1 "out/img_1.png"
                 (800, 600) "#cccccc" "#333333" "png" (Some "font.ttf") None 90 false
                 (2 # 10) (Sim.world Sim.linux Sim.empty_fs)).2
              "out/img_1.png" eq_refl)
    as (font_file & _ & _ & _ & n & font & _ & _ & _ & Hfile & _ & _ & _ & Hsize & Hfont & _).
  - vm_compute. reflexivity.
  - simpl in Hfile. injection Hfile as <-.
    exists "font.ttf", n, font. repeat split; try assumption.
    vm_compute in Hsize. injection Hsize as <-. reflexivity.
Defined.

Section GenerateFrame.
Context {H : Host}.
Variables (number : Z) (output_path : string) (size : Z * Z).
Variables (bg_color text_color format : string).
Variables (font_path : option string) (font_size : option Z).
Variables (jpg_quality : Z) (overwrite : bool) (padding : Q).

(** What one call can do to the world. *)
Lemma generate_effects (w w' : World) r :
  generate_placeholder_image number output_path size bg_color text_color format
    font_path font_size jpg_quality overwrite padding w = (r, w') ->
  let parent := os_path_dirname (os_path_abspath output_path) in
  (stdout w' = stdout w \/
   (stdout w' = stdout w ++ ["Skipping " +:+ output_path +:+ " (already exists)"] /\
    fs w' = fs w /\ r = inr output_path)) /\
  (fs w' = fs w \/
   (exists e, r = inl e /\ os_makedirs parent (fs w) = (inl e, fs w')) \/
   (exists img fs1 r',
       os_makedirs parent (fs w) = (inr tt, fs1) /\
       Image_save img output_path (encoder format jpg_quality).1
         (encoder format jpg_quality).2 fs1 = (r', fs w') /\
       r = match r' with inl e => inl e | inr _ => inr output_path end)).
Proof.
  unfold generate_placeholder_image, save_image, io_bind, io_read, io_lift, io_fs,
    print, io_ret, encoder.
  intros Hrun.
  repeat (case_match; simplify_eq/=);
    repeat match goal with u : unit |- _ => destruct u end;
    (split; [by auto|]);
    first [ by left
          | by (right; left; eexists; split; [reflexivity|eassumption])
          | by (right; right; do 3 eexists; split; [eassumption|];
                split; [eassumption|reflexivity]) ].
Qed.

End GenerateFrame.

(** X7.  One call of [generate_placeholder_image] prints nothing, except
    the "Skipping" line of the early return.  It changes the file system
    in at most two ways: by [os.makedirs] on the parent directory of the
    output path and then by one [img.save] to the output path itself; a
    failure before that (font, colour, canvas, measuring, drawing) leaves
    the file system as it was. *)
Theorem generate_placeholder_image_effects {H : Host}
    (number : Z) (output_path : string) (size : Z * Z) (bg_color text_color format : string)
    (font_path : option string) (font_size : option Z) (jpg_quality : Z)
    (overwrite : bool) (padding : Q) (w : World) :
  let outcome := generate_placeholder_image number output_path size bg_color text_color
                   format font_path font_size jpg_quality overwrite padding w in
  let parent := os_path_dirname (os_path_abspath output_path) in
  (stdout outcome.2 = stdout w \/
   (stdout outcome.2 = stdout w ++ ["Skipping " +:+ output_path +:+ " (already exists)"] /\
    fs outcome.2 = fs w /\ outcome.1 = inr output_path)) /\
  (fs outcome.2 = fs w \/
   (exists e, outcome.1 = inl e /\ os_makedirs parent (fs w) = (inl e, fs outcome.2)) \/
   (exists img fs1 r',
       os_makedirs parent (fs w) = (inr tt, fs1) /\
       Image_save img output_path (encoder format jpg_quality).1
         (encoder format jpg_quality).2 fs1 = (r', fs outcome.2) /\
       outcome.1 = match r' with inl e => inl e | inr _ => inr output_path end)).
Proof.
  intros outcome parent.
  apply (generate_effects number output_path size bg_color text_color format
           font_path font_size jpg_quality overwrite padding w outcome.2 outcome.1).
  subst outcome. apply surjective_pairing.
Qed.

(** X8.  Every failure of the font step (lines 200-206) is reported as a
    [ValueError] whose message starts with ["Font error: "].  Without an
    explicit size the font is loaded at the size the search returns, which
    is at least 10; an explicit size is passed to [ImageFont.truetype] as it
    is, with no search and no lower bound. *)
Theorem load_font_outcomes {H : Host}
    (text : string) (size : Z * Z) (font_path : string) (padding : Q) :
  let wrap (r : res FreeTypeFont) : res FreeTypeFont :=
    match r with
    | inr font => inr font
    | inl e => raise ValueError ("Font error: " +:+ exn_msg e)
    end in
  (forall font_size e,
      load_font text size font_path font_size padding = inl e ->
      exn_cls e = ValueError /\ exists msg, exn_msg e = "Font error: " +:+ msg)
  /\ (exists n,
        10 <= n /\
        calculate_font_size text size font_path (1 - 2 * padding) = inr n /\
        load_font text size font_path None padding = wrap (ImageFont_truetype font_path n))
  /\ (forall given,
        load_font text size font_path (Some given) padding
        = wrap (ImageFont_truetype font_path given)).
Proof.
  intros wrap. split; [|split].
  - intros font_size e. unfold load_font, try_except.
    destruct (res_bind _ _) as [e'|font]; [|discriminate].
    intros [= <-]. split; [reflexivity|]. eexists. reflexivity.
  - destruct (search_loop_result_bounds text size font_path (1 - 2 * padding))
      as (st & Hrun & _ & Hopt).
    exists (optimal_size st).
    assert (Hcalc : calculate_font_size text size font_path (1 - 2 * padding)
                    = inr (optimal_size st))
      by (rewrite calculate_font_size_loop, Hrun; reflexivity).
    split; [lia|]. split; [exact Hcalc|].
    unfold load_font. rewrite Hcalc. simpl.
    destruct (ImageFont_truetype font_path (optimal_size st)); reflexivity.
  - intros given. unfold load_font. simpl.
    destruct (ImageFont_truetype font_path given); reflexivity.
Qed.

(** A font file that cannot be loaded: the error of [ImageFont.truetype]
    comes out as ["Font error: cannot open resource"]. *)
Lemma load_font_outcomes_witness :
  load_font (H := Sim.broken) "7" (800, 600) "font.ttf" None (2 # 10)
    = raise ValueError "Font error: cannot open resource"
  /\ exists msg, "Font error: cannot open resource" = "Font error: " +:+ msg.
Proof.
  split; [reflexivity|].
  exact (proj2 (proj1 (load_font_outcomes (H := Sim.broken) "7" (800, 600) "font.ttf"
                         (2 # 10))
                  None (Raise ValueError "Font error: cannot open resource") eq_refl)).
Defined.

Section BatchFiles.
Context {H : Host}.
Variables (output_dir : string) (start_num : Z) (size : Z * Z).
Variables (bg_color text_color format prefix : string).
Variables (font_size : option Z) (font_path : option string).
Variables (jpg_quality : Z) (overwrite : bool) (padding : Q).

Local Abbreviation path_of := (image_path output_dir start_num format prefix).
Local Abbreviation run :=
  (images_loop output_dir start_num size bg_color text_color format prefix
     font_size font_path jpg_quality overwrite padding).

(** The loop appends to the list it is given a subsequence of the paths of
    its indices, each with its "Generated" line. *)
Lemma images_loop_files indices files (w : World) :
  exists added w',
    run indices files w = (inr (files ++ added), w') /\
    added `sublist_of` map path_of indices /\
    (exists lines, stdout w' = stdout w ++ lines) /\
    forall p, p ∈ added -> ("Generated: " +:+ p) ∈ stdout w'.
Proof.
  revert files w. induction indices as [|i indices IH]; intros files w.
  - exists [], w. rewrite app_nil_r. split; [reflexivity|]. split; [constructor|].
    split; [exists []; rewrite app_nil_r; reflexivity|]. intros p Hp. inversion Hp.
  - simpl. unfold io_bind.
    destruct (generate_placeholder_image (start_num + i) (path_of i) size bg_color
                text_color format font_path font_size jpg_quality overwrite padding w)
      as [[e|path] w1] eqn:Hgen;
      destruct (generate_outcome _ _ _ _ _ _ _ _ _ _ _ _ _ _ Hgen) as [_ [l1 Hl1]].
    + rewrite (images_step_error _ _ _ _ _ _ _ _ _ _ _ _ i files w w1 e Hgen).
      destruct (IH files (MkWorld (fs w1)
                  (stdout w1 ++ ["Error generating " +:+ path_of i +:+ ": " +:+ exn_msg e])))
        as (added & w2 & Hrun & Hsub & [l2 Hl2] & Hgen2).
      exists added, w2. split; [exact Hrun|]. split; [apply sublist_cons; exact Hsub|].
      split; [|exact Hgen2]. rewrite Hl2. simpl. rewrite Hl1, <- !app_assoc. eauto.
    + rewrite (images_step_ok _ _ _ _ _ _ _ _ _ _ _ _ i files w w1 path Hgen).
      destruct (IH (files ++ [path_of i])
                  (MkWorld (fs w1) (stdout w1 ++ ["Generated: " +:+ path_of i])))
        as (added & w2 & Hrun & Hsub & [l2 Hl2] & Hgen2).
      exists (path_of i :: added), w2. split; [|split; [|split]].
      * rewrite Hrun, <- app_assoc. reflexivity.
      * apply sublist_skip. exact Hsub.
      * rewrite Hl2. simpl. rewrite Hl1, <- !app_assoc. eauto.
      * intros p Hp. apply elem_of_cons in Hp as [->|Hp]; [|auto].
        rewrite Hl2. simpl. apply elem_of_app. left. apply elem_of_app. right.
        apply list_elem_of_singleton. reflexivity.
Qed.

End BatchFiles.

(** X9.  The list [generate_placeholder_images] returns is a subsequence of
    the batch's paths, in index order: never a path outside the batch, never
    one twice for two indices, at most [count] of them, and none at all for
    a count of zero or less.  Every returned path has its "Generated" line
    on the output. *)
Theorem generated_files_are_batch_paths {H : Host}
    (output_dir : string) (start_num : Z) (size : Z * Z)
    (bg_color text_color format prefix : string)
    (font_size : option Z) (font_path : option string) (jpg_quality : Z)
    (overwrite : bool) (padding : Q) (count : Z) (w : World) :
  let outcome := generate_placeholder_images output_dir start_num size bg_color text_color
                   format prefix font_size font_path jpg_quality overwrite padding count w in
  forall files, outcome.1 = inr files ->
    files `sublist_of` map (image_path output_dir start_num format prefix) (seqZ 0 count) /\
    (length files <= Z.to_nat count)%nat /\
    (count <= 0 -> files = []) /\
    forall p, p ∈ files -> ("Generated: " +:+ p) ∈ stdout outcome.2.
Proof.
  intros outcome files Hres. subst outcome.
  unfold generate_placeholder_images, io_bind, io_fs in Hres |- *.
  destruct (os_makedirs output_dir (fs w)) as [[e|[]] fs1]; [discriminate|].
  destruct (images_loop_files output_dir start_num size bg_color text_color format prefix
              font_size font_path jpg_quality overwrite padding (seqZ 0 count) []
              (MkWorld fs1 (stdout w)))
    as (added & w2 & Hrun & Hsub & _ & Hgen).
  rewrite Hrun in Hres |- *. simpl in Hres |- *. injection Hres as <-.
  assert (Hlen : (length added <= Z.to_nat count)%nat).
  { apply sublist_length in Hsub. rewrite length_map, length_seqZ in Hsub. exact Hsub. }
  split; [exact Hsub|]. split; [exact Hlen|]. split; [|exact Hgen].
  intros Hcount. destruct added; [reflexivity|]. simpl in Hlen. lia.
Qed.

(** The batch of three whose second image fails returns two paths. *)
Lemma generated_files_are_batch_paths_witness :
  ["out/img_1.png"; "out/img_3.png"]
    `sublist_of` ["out/img_1.png"; "out/img_2.png"; "out/img_3.png"].
Proof.
  exact (proj1 (generated_files_are_batch_paths (H := Sim.no_two) "out" 1 (800, 600)
                  "#cccccc" "#333333" "png" "img_" None (Some "font.ttf") 90 false
                  (2 # 10) 3 (Sim.world Sim.no_two Sim.empty_fs)
                  ["out/img_1.png"; "out/img_3.png"] eq_refl)).
Defined.

(** ** The command line *)


(** ** Colour channels *)

Lemma hex_digit_range (c : ascii) (d : Z) :
  ImageColor.hex_digit c = Some d -> 0 <= d <= 15.
Proof.
  unfold ImageColor.hex_digit. intros Hd.
  destruct ((48 <=? ord c) && (ord c <=? 57)) eqn:H1.
  - injection Hd as <-. apply andb_true_iff in H1 as [Ha Hb]. lia.
  - destruct ((97 <=? ord c) && (ord c <=? 102)) eqn:H2; [|discriminate].
    injection Hd as <-. apply andb_true_iff in H2 as [Ha Hb]. lia.
Qed.

Lemma hex_digits_range (s : string) (ds : list Z) :
  ImageColor.hex_digits s = Some ds -> Forall (fun d => 0 <= d <= 15) ds.
Proof.
  revert ds. induction s as [|c s IH]; intros ds; simpl.
  - intros [= <-]. constructor.
  - destruct (Ascii.eqb c "010" && String.eqb s ""); [intros [= <-]; constructor|].
    destruct (ImageColor.hex_digit c) as [d|] eqn:Hd; [|discriminate]. simpl.
    destruct (ImageColor.hex_digits s) as [ds'|]; [|discriminate]. simpl.
    intros [= <-]. constructor; [exact (hex_digit_range c d Hd) | apply IH; reflexivity].
Qed.

(** A hex form has three or four channels, each a byte. *)
Lemma hex_form_range (color : string) (t : list Z) :
  ImageColor.hex_form color = Some t ->
  (length t = 3%nat \/ length t = 4%nat) /\ Forall (fun x => 0 <= x <= 255) t.
Proof.
  unfold ImageColor.hex_form. destruct color as [|c digits]; [discriminate|].
  destruct (Ascii.eqb_spec c "#") as [->|Hne].
  - destruct (ImageColor.hex_digits digits) as [ds|] eqn:Hds; [|discriminate].
    apply hex_digits_range in Hds. simpl.
    destruct ds as [|d1 [|d2 [|d3 [|d4 [|d5 [|d6 [|d7 [|d8 [|d9 ds]]]]]]]]];
      try discriminate; intros [= <-];
      repeat match goal with
             | Hf : Forall _ (_ :: _) |- _ => apply Forall_cons in Hf as [? Hf]
             end;
      (split; [auto|]); repeat constructor; lia.
  - destruct c as [[] [] [] [] [] [] [] []]; try discriminate; congruence.
Qed.

(** Every value of the name table is a six-digit hex form. *)
Lemma colormap_values_hex :
  forallb (fun entry =>
             match ImageColor.hex_form entry.2 with
             | Some [_; _; _] => true
             | _ => false
             end) ImageColor.colormap = true.
Proof. vm_compute. reflexivity. Qed.

Lemma colormap_get_In (table : list (string * string)) (color value : string) :
  ImageColor.colormap_get table color = Some value -> In (color, value) table.
Proof.
  induction table as [|[name v] table IH]; simpl; [discriminate|].
  destruct (String.eqb_spec name color) as [->|Hne].
  - intros [= ->]. left. reflexivity.
  - intros Hget. right. apply IH. exact Hget.
Qed.

Lemma strip_prefix_startswith (pre s rest : string) :
  strip_prefix pre s = Some rest -> startswith s pre = true.
Proof.
  unfold startswith. revert s. induction pre as [|a pre IH]; intros s; simpl.
  - destruct s; reflexivity.
  - destruct s as [|b s]; [discriminate|].
    destruct (Ascii.eqb_spec a b) as [->|Hne]; [|discriminate].
    intros Hs. simpl. destruct (Ascii.ascii_dec b b) as [_|Hbb]; [|congruence].
    apply IH. exact Hs.
Qed.

(** X11.  For an input that is not in a functional notation (it does not
    start with [rgb(], [rgba(], [hsl(], [hsv(] or [hsb(], in any case),
    a successful [parse_color] returns exactly four channels, each between
    0 and 255, as the docstring promises. *)
Theorem parse_color_channels {H : Host} (color : string) (t : list Z) :
  ImageColor.functional_prefix (lower color) = false ->
  parse_color color = inr t ->
  length t = 4%nat /\ Forall (fun x => 0 <= x <= 255) t.
Proof.
  intros Hfun. unfold parse_color, ImageColor.getcolor_RGBA, ImageColor.getrgb.
  destruct (100 <? String.length color)%nat; [discriminate|].
  assert (Hfinish : forall rgb,
            (length rgb = 3%nat \/ length rgb = 4%nat) /\
            Forall (fun x => 0 <= x <= 255) rgb ->
            try_except_cls ValueError
              (res_bind (ok rgb)
                 (fun rgb => match rgb with
                             | [r; g; b; alpha] => ok ([r; g; b] ++ [alpha])
                             | _ => ok (rgb ++ [255])
                             end))
              (fun _ => raise ValueError ("Unrecognized color: " +:+ color)) = inr t ->
            length t = 4%nat /\ Forall (fun x => 0 <= x <= 255) t).
  { intros rgb [Hlen Hall].
    destruct rgb as [|x1 [|x2 [|x3 [|x4 [|x5 rgb]]]]]; simpl in Hlen;
      try (exfalso; lia); simpl; intros [= <-]; (split; [reflexivity|]).
    - repeat match goal with
             | Hf : Forall _ (_ :: _) |- _ => apply Forall_cons in Hf as [? Hf]
             end.
      repeat constructor; lia.
    - exact Hall. }
  destruct (ImageColor.colormap_get ImageColor.colormap (lower color)) as [value|] eqn:Hget.
  - apply colormap_get_In in Hget.
    pose proof colormap_values_hex as Hvalues. rewrite forallb_forall in Hvalues.
    specialize (Hvalues _ Hget). simpl in Hvalues.
    destruct (ImageColor.hex_form value) as [rgb|] eqn:Hhex; [|discriminate].
    apply Hfinish. apply (hex_form_range value). exact Hhex.
  - destruct (ImageColor.hex_form (lower color)) as [rgb|] eqn:Hhex.
    + apply Hfinish. apply (hex_form_range (lower color)). exact Hhex.
    + destruct (ImageColor.rgb_form (lower color)) as [rgb|] eqn:Hrgb.
      * exfalso. unfold ImageColor.rgb_form in Hrgb.
        destruct (strip_prefix "rgb(" (lower color)) as [rest|] eqn:Hstrip;
          [|discriminate].
        apply strip_prefix_startswith in Hstrip.
        unfold ImageColor.functional_prefix in Hfun. rewrite Hstrip in Hfun. discriminate.
      * rewrite Hfun. discriminate.
Qed.

(** A colour name, in capitals. *)
Lemma parse_color_channels_witness :
  length [255; 127; 80; 255] = 4%nat /\ Forall (fun x => 0 <= x <= 255) [255; 127; 80; 255].
Proof.
  exact (parse_color_channels (H := Sim.linux) "CORAL" [255; 127; 80; 255]
           eq_refl eq_refl).
Defined.

(** ** File names of a batch *)

Lemma append_inj_l (p x y : string) : p +:+ x = p +:+ y -> x = y.
Proof.
  induction p as [|c p IH]; [intros Hxy; exact Hxy|].
  intros Hxy. injection Hxy as Hxy. exact (IH Hxy).
Qed.

Lemma append_inj_r (x y s : string) : x +:+ s = y +:+ s -> x = y.
Proof.
  revert y. induction x as [|c x IH]; intros [|d y] Hxy.
  - reflexivity.
  - apply (f_equal String.length) in Hxy.
    rewrite !length_app_string in Hxy. simpl in Hxy. lia.
  - apply (f_equal String.length) in Hxy.
    rewrite !length_app_string in Hxy. simpl in Hxy. lia.
  - change (String c (x +:+ s) = String d (y +:+ s)) in Hxy.
    injection Hxy as -> Hxy. f_equal. exact (IH y Hxy).
Qed.

(** X12.  Two indices of a batch never share an output path, provided
    joining to the output directory keeps apart file names that start with
    the prefix: a batch cannot overwrite one of its own images. *)
Theorem image_paths_distinct {H : Host}
    (output_dir : string) (start_num : Z) (format prefix : string) (i j : Z) :
  (forall a b, os_path_join output_dir (prefix +:+ a) = os_path_join output_dir (prefix +:+ b) ->
               a = b) ->
  i <> j ->
  image_path output_dir start_num format prefix i
  <> image_path output_dir start_num format prefix j.
Proof.
  intros Hjoin Hij Heq. unfold image_path in Heq.
  apply Hjoin in Heq. apply append_inj_r in Heq.
  apply (inj pretty) in Heq. lia.
Qed.

(** Images 1 and 2 of a batch in [out] on the simulated host. *)
Lemma image_paths_distinct_witness :
  image_path (H := Sim.linux) "out" 1 "png" "img_" 0
  <> image_path (H := Sim.linux) "out" 1 "png" "img_" 1.
Proof.
  apply (image_paths_distinct (H := Sim.linux) "out" 1 "png" "img_" 0 1).
  - intros a b Hab. vm_compute in Hab. injection Hab as Hab. exact Hab.
  - lia.
Defined.

(** ** Running a batch twice *)

Section Rerun.
Context {H : Host}.

(** What the statements below ask of the host: a successful [img.save]
    makes its path exist, and neither it nor a successful [os.makedirs]
    makes an existing path disappear. *)
Hypothesis save_creates :
  forall img path format options fs0 fs1,
    Image_save img path format options fs0 = (inr tt, fs1) ->
    os_path_exists path fs1 = true /\
    forall q, os_path_exists q fs0 = true -> os_path_exists q fs1 = true.
Hypothesis makedirs_keeps :
  forall dir fs0 fs1,
    os_makedirs dir fs0 = (inr tt, fs1) ->
    forall q, os_path_exists q fs0 = true -> os_path_exists q fs1 = true.

Variables (output_dir : string) (start_num : Z) (size : Z * Z).
Variables (bg_color text_color format prefix : string).
Variables (font_size : option Z) (font_path : option string).
Variables (jpg_quality : Z) (padding : Q).

Local Abbreviation path_of := (image_path output_dir start_num format prefix).
Local Abbreviation run :=
  (images_loop output_dir start_num size bg_color text_color format prefix
     font_size font_path jpg_quality false padding).

(** A call that succeeds leaves its output path on the disk and removes
    nothing. *)
Lemma generate_leaves_file number output_path (w w' : World) path :
  generate_placeholder_image number output_path size bg_color text_color format
    font_path font_size jpg_quality false padding w = (inr path, w') ->
  os_path_exists output_path (fs w') = true /\
  forall q, os_path_exists q (fs w) = true -> os_path_exists q (fs w') = true.
Proof.
  destruct (os_path_exists output_path (fs w)) eqn:Hex.
  - rewrite generate_skip by exact Hex. intros [= <- <-]. simpl. auto.
  - intros Hgen.
    assert (Hsaved : exists img fs1 fmt opts,
               os_makedirs (os_path_dirname (os_path_abspath output_path)) (fs w)
                 = (inr tt, fs1) /\
               Image_save img output_path fmt opts fs1 = (inr tt, fs w')).
    { revert Hgen.
      unfold generate_placeholder_image, save_image, io_bind, io_read, io_lift, io_fs,
        print, io_ret.
      rewrite Hex. simpl. intros Hgen.
      repeat (case_match; simplify_eq/=);
        repeat match goal with u : unit |- _ => destruct u end;
        do 4 eexists; split; eassumption. }
    destruct Hsaved as (img & fs1 & fmt & opts & Hmk & Hsave).
    destruct (save_creates _ _ _ _ _ _ Hsave) as [Hnew Hkeep].
    split; [exact Hnew|]. intros q Hq. apply Hkeep. exact (makedirs_keeps _ _ _ Hmk q Hq).
Qed.

(** A loop in which no image failed leaves every image of the batch on the
    disk. *)
Lemma images_loop_leaves_files indices files files' (w w' : World) :
  run indices files w = (inr files', w') ->
  length files' = (length files + length indices)%nat ->
  (forall i, i ∈ indices -> os_path_exists (path_of i) (fs w') = true) /\
  (forall q, os_path_exists q (fs w) = true -> os_path_exists q (fs w') = true).
Proof.
  revert files w. induction indices as [|i indices IH]; intros files w Hrun Hlen.
  - simpl in Hrun. injection Hrun as <- <-. split; [|auto]. intros i Hi. inversion Hi.
  - simpl in Hrun. unfold io_bind in Hrun.
    destruct (generate_placeholder_image (start_num + i) (path_of i) size bg_color
                text_color format font_path font_size jpg_quality false padding w)
      as [[e|path] w1] eqn:Hgen.
    + exfalso.
      rewrite (images_step_error _ _ _ _ _ _ _ _ _ _ _ _ i files w w1 e Hgen) in Hrun.
      destruct (images_loop_files output_dir start_num size bg_color text_color format
                  prefix font_size font_path jpg_quality false padding indices files
                  (MkWorld (fs w1)
                     (stdout w1 ++ ["Error generating " +:+ path_of i +:+ ": "
                                      +:+ exn_msg e])))
        as (added & w2 & Hrun' & Hsub & _).
      rewrite Hrun' in Hrun. injection Hrun as <- <-.
      apply sublist_length in Hsub. rewrite length_map in Hsub.
      rewrite length_app in Hlen. simpl in Hlen. lia.
    + rewrite (images_step_ok _ _ _ _ _ _ _ _ _ _ _ _ i files w w1 path Hgen) in Hrun.
      destruct (generate_leaves_file _ _ _ _ _ Hgen) as [Hnew Hkeep].
      destruct (IH _ _ Hrun) as [Hall Hkeep'].
      { rewrite length_app. simpl in *. lia. }
      simpl in Hkeep'. split.
      * intros j Hj. apply elem_of_cons in Hj as [->|Hj]; [|auto].
        apply Hkeep'. exact Hnew.
      * intros q Hq. apply Hkeep'. apply Hkeep. exact Hq.
Qed.

(** A batch that was generated without a failure is skipped as a whole
    when it is run again. *)
Lemma rerun_skips count files (w w1 : World) fs2 :
  generate_placeholder_images output_dir start_num size bg_color text_color format prefix
    font_size font_path jpg_quality false padding count w = (inr files, w1) ->
  length files = Z.to_nat count ->
  os_makedirs output_dir (fs w1) = (inr tt, fs2) ->
  generate_placeholder_images output_dir start_num size bg_color text_color format prefix
    font_size font_path jpg_quality false padding count w1
  = (inr (map path_of (seqZ 0 count)),
     MkWorld fs2 (stdout w1 ++ flat_map (fun i => skipped_report (path_of i))
                                        (seqZ 0 count))).
Proof.
  intros Hfirst Hlen Hmk.
  unfold generate_placeholder_images, io_bind, io_fs in Hfirst |- *.
  destruct (os_makedirs output_dir (fs w)) as [[e|[]] fs1]; [discriminate|].
  destruct (images_loop_leaves_files _ _ _ _ _ Hfirst) as [Hall _].
  { simpl. rewrite length_seqZ. exact Hlen. }
  rewrite Hmk. rewrite images_loop_skip.
  - reflexivity.
  - intros i Hi. simpl. apply (makedirs_keeps _ _ _ Hmk). apply Hall. exact Hi.
Qed.

End Rerun.

(** X13.  On a host where a successful [img.save] makes its path exist and
    where a successful [img.save] or [os.makedirs] removes no path: if a
    batch with [overwrite] off returned [count] paths (no image failed),
    running the same batch again writes no image; it returns the same paths
    and prints the "Skipping" and "Generated" lines for each. *)
Theorem batch_rerun_is_skipped {H : Host}
    (output_dir : string) (start_num : Z) (size : Z * Z)
    (bg_color text_color format prefix : string)
    (font_size : option Z) (font_path : option string) (jpg_quality : Z) (padding : Q)
    (count : Z) (files : list string) (w w1 : World) (fs2 : FileSystem) :
  (forall img path format options fs0 fs1,
      Image_save img path format options fs0 = (inr tt, fs1) ->
      os_path_exists path fs1 = true /\
      forall q, os_path_exists q fs0 = true -> os_path_exists q fs1 = true) ->
  (forall dir fs0 fs1,
      os_makedirs dir fs0 = (inr tt, fs1) ->
      forall q, os_path_exists q fs0 = true -> os_path_exists q fs1 = true) ->
  generate_placeholder_images output_dir start_num size bg_color text_color format prefix
    font_size font_path jpg_quality false padding count w = (inr files, w1) ->
  length files = Z.to_nat count ->
  os_makedirs output_dir (fs w1) = (inr tt, fs2) ->
  generate_placeholder_images output_dir start_num size bg_color text_color format prefix
    font_size font_path jpg_quality false padding count w1
  = (inr (map (image_path output_dir start_num format prefix) (seqZ 0 count)),
     MkWorld fs2
       (stdout w1 ++ flat_map (fun i => skipped_report
                                          (image_path output_dir start_num format prefix i))
                              (seqZ 0 count))).
Proof.
  intros Hsave Hmk. apply rerun_skips; assumption.
Qed.

(** The simulated disk keeps what is saved to it. *)
Lemma sim_save_creates img path format options (fs0 fs1 : Sim.sim_fs) :
  @Image_save Sim.linux img path format options fs0 = (inr tt, fs1) ->
  Sim.exists_ path fs1 = true /\
  forall q, Sim.exists_ q fs0 = true -> Sim.exists_ q fs1 = true.
Proof.
  simpl. intros [= <-]. unfold Sim.exists_. simpl. split.
  - rewrite lookup_insert_eq. reflexivity.
  - intros q Hq. apply orb_true_iff in Hq as [Hq|Hq]; apply orb_true_iff.
    + left. apply bool_decide_eq_true in Hq. apply bool_decide_eq_true.
      apply lookup_insert_is_Some'. right. exact Hq.
    + right. exact Hq.
Defined.

Lemma sim_makedirs_keeps dir (fs0 fs1 : Sim.sim_fs) :
  Sim.makedirs dir fs0 = (inr tt, fs1) ->
  forall q, Sim.exists_ q fs0 = true -> Sim.exists_ q fs1 = true.
Proof.
  unfold Sim.makedirs. destruct (Sim.dirs fs0 !! dir) eqn:Hdir; intros [= <-] q Hq.
  - exact Hq.
  - unfold Sim.exists_ in *. simpl.
    apply orb_true_iff in Hq as [Hq|Hq]; apply orb_true_iff; [left; exact Hq|right].
    apply bool_decide_eq_true in Hq. apply bool_decide_eq_true.
    apply lookup_insert_is_Some'. right. exact Hq.
Defined.

(** A batch of two on an empty simulated disk, run twice. *)
Lemma batch_rerun_is_skipped_witness :
  let batch := generate_placeholder_images (H := Sim.linux) "out" 1 (800, 600) "#cccccc"
                 "#333333" "png" "img_" None (Some "font.ttf") 90 false (2 # 10) 2 in
  let first := batch (Sim.world Sim.linux Sim.empty_fs) in
  let second := batch first.2 in
  first.1 = inr ["out/img_1.png"; "out/img_2.png"] /\
  second.1 = inr ["out/img_1.png"; "out/img_2.png"] /\
  fs second.2 = fs first.2 /\
  stdout second.2 =
    stdout first.2 ++ [ "Skipping out/img_1.png (already exists)";
                        "Generated: out/img_1.png";
                        "Skipping out/img_2.png (already exists)";
                        "Generated: out/img_2.png" ].
Proof.
  intros batch first second.
  assert (Hfirst : first = (inr ["out/img_1.png"; "out/img_2.png"], first.2))
    by (vm_compute; reflexivity).
  assert (Hmk : @os_makedirs Sim.linux "out" (fs first.2) = (inr tt, fs first.2))
    by (vm_compute; reflexivity).
  pose proof (batch_rerun_is_skipped (H := Sim.linux) "out" 1 (800, 600) "#cccccc"
                "#333333" "png" "img_" None (Some "font.ttf") 90 (2 # 10) 2
                ["out/img_1.png"; "out/img_2.png"] (Sim.world Sim.linux Sim.empty_fs)
                first.2 (fs first.2)
                sim_save_creates sim_makedirs_keeps Hfirst eq_refl Hmk) as Hsecond.
  fold batch in Hsecond. fold second in Hsecond.
  split; [rewrite Hfirst; reflexivity|]. rewrite Hsecond. repeat split.
Defined.
